(** * pica-cart-magic: the cart provider and the order-id generator

    A shallow embedding of
    - [CartProvider] (the cart context of the storefront: [loadLocalCart],
      [syncLocalCart], [addToCart], [updateQuantity], [removeFromCart],
      [clearCart]), and
    - [public.generate_order_id()] of the first database migration,
    followed by the properties the storefront's description states about
    them.

    The provider is asynchronous JavaScript over three stores: the browser's
    [localStorage] (one key, ['picamart-cart']), React state ([items]) and
    the hosted Postgres tables [products] and [cart_items].  Every provider
    function is embedded as a computation in a state-and-exception monad over
    a [World] holding those stores, the console, the toasts that were shown,
    and two environment scripts: which backend requests fail in transit, and
    what [Math.random().toString(36)] returns.  One provider call is run to
    completion before the next starts (no interleaving of awaits). *)

From stdpp Require Import gmap strings list fin_maps.
From Stdlib Require Import ZArith Lia DecimalString.

Local Open Scope Z_scope.

(** ** Data *)

(** [interface CartItem].  [price] is the product's [NUMERIC(10,2)] price in
    hundredths; no property below computes with it.  [qty] is a JavaScript
    number holding a whole number; it is embedded as that whole number, and
    [+] on quantities as the sum in [Z].  The code's [+] is that of IEEE
    doubles, which gives the same sum as long as the operands and the
    result are safe integers (at most [2^53 - 1] in absolute value):
    every statement below that reads a sum off the code carries that bound
    ([exact_sum], [exact_total]). *)
Record CartItem := mkCartItem {
  id : string;
  product_id : string;
  title : string;
  price : Z;
  qty : Z;
  images : list string;
}.

(** The columns of [public.products] the provider reads. *)
Record Product := mkProduct {
  p_title : string;
  p_price : Z;
  p_images : list string;
}.

(** [{ ...item, qty }] *)
Definition with_qty (item : CartItem) (q : Z) : CartItem :=
  mkCartItem (id item) (product_id item) (title item) (price item) q (images item).

(** What [localStorage.getItem('picamart-cart')] can hold when the key is
    present.  The provider only ever writes [JSON.stringify] of a
    [CartItem[]]; [JSON.parse] of that text gives the array back, so the
    text is represented by the array ([Lines]).  [Malformed] is text that is
    not JSON, which [JSON.parse] rejects, and [Blank] the empty string,
    which JavaScript treats as false.  Text that is JSON but not an array
    of cart lines ([null], [{}], [5]) has no constructor here: the provider
    never writes it, [JSON.parse] accepts it, and what the code then does
    with the value (a [TypeError] from an array method, or a rendered value
    that is no array) is outside this embedding. *)
Inductive Stored :=
  | Blank
  | Malformed
  | Lines (l : list CartItem).

Inductive Exn :=
  | SyntaxError                 (* thrown by JSON.parse *)
  | PostgrestError (code : string). (* the [error] of a backend response, rethrown *)

Record Toast := mkToast {
  t_title : string;
  t_description : string;
  t_destructive : bool;
}.

Record World := mkWorld {
  storage : option Stored;                 (* localStorage['picamart-cart'] *)
  items : list CartItem;                   (* useState<CartItem[]>([]) *)
  products : gmap string Product;          (* public.products, by id *)
  cart_items : gmap (string * string) Z;   (* public.cart_items: qty by UNIQUE(user_id, product_id) *)
  outages : list bool;                     (* per backend request still to come: does it fail in transit *)
  entropy : list string;                   (* Math.random().toString(36) values still to come *)
  toasts : list Toast;                     (* toasts shown so far *)
  console : list (string * Exn);           (* console.error calls so far *)
}.

(** ** The monad of provider code *)

Inductive Completion (A : Type) :=
  | Normal (a : A)
  | Throw (e : Exn).
Arguments Normal {A} a.
Arguments Throw {A} e.

Definition Js (A : Type) : Type := World → Completion A * World.

Global Instance Js_ret : MRet Js := λ A a w, (Normal a, w).

Global Instance Js_bind : MBind Js := λ A B f m w,
  match m w with
  | (Normal a, w') => f a w'
  | (Throw e, w') => (Throw e, w')
  end.

Definition throw {A} (e : Exn) : Js A := λ w, (Throw e, w).

(** [try { body } catch (error) { handler }] *)
Definition try_catch {A} (body : Js A) (handler : Exn → Js A) : Js A := λ w,
  match body w with
  | (Normal a, w') => (Normal a, w')
  | (Throw e, w') => handler e w'
  end.

(** [for (const x of l) { await body(x) }] *)
Fixpoint for_of {A} (l : list A) (body : A → Js unit) : Js unit :=
  match l with
  | [] => mret tt
  | x :: l' => body x ;; for_of l' body
  end.

Definition outcome {A} (r : Completion A * World) : Completion A := fst r.
Definition after {A} (r : Completion A * World) : World := snd r.

(** ** The browser: localStorage, React state, toasts, console, randomness *)

Definition set_storage (v : option Stored) (w : World) : World :=
  mkWorld v (items w) (products w) (cart_items w) (outages w) (entropy w) (toasts w) (console w).
Definition set_items (l : list CartItem) (w : World) : World :=
  mkWorld (storage w) l (products w) (cart_items w) (outages w) (entropy w) (toasts w) (console w).
Definition set_cart_items (t : gmap (string * string) Z) (w : World) : World :=
  mkWorld (storage w) (items w) (products w) t (outages w) (entropy w) (toasts w) (console w).
Definition set_outages (o : list bool) (w : World) : World :=
  mkWorld (storage w) (items w) (products w) (cart_items w) o (entropy w) (toasts w) (console w).
Definition set_entropy (e : list string) (w : World) : World :=
  mkWorld (storage w) (items w) (products w) (cart_items w) (outages w) e (toasts w) (console w).
Definition set_toasts (t : list Toast) (w : World) : World :=
  mkWorld (storage w) (items w) (products w) (cart_items w) (outages w) (entropy w) t (console w).
Definition set_console (c : list (string * Exn)) (w : World) : World :=
  mkWorld (storage w) (items w) (products w) (cart_items w) (outages w) (entropy w) (toasts w) c.

Definition gets {A} (f : World → A) : Js A := λ w, (Normal (f w), w).
Definition modify (f : World → World) : Js unit := λ w, (Normal tt, f w).

Definition getItem : Js (option Stored) := gets storage.
Definition setItem (l : list CartItem) : Js unit := modify (set_storage (Some (Lines l))).
Definition removeItem : Js unit := modify (set_storage None).
Definition setItems (l : list CartItem) : Js unit := modify (set_items l).
Definition toast (t : Toast) : Js unit := modify (λ w, set_toasts (toasts w ++ [t]) w).
Definition console_error (msg : string) (e : Exn) : Js unit :=
  modify (λ w, set_console (console w ++ [(msg, e)]) w).

(** [Math.random().toString(36)]: the next value of the script (["0"], what
    a draw of zero prints as, once the script is used up). *)
Definition random_id : Js string :=
  rid ← gets (λ w, default "0"%string (head (entropy w)));
  modify (λ w, set_entropy (tail (entropy w)) w);;
  mret rid.

(** JavaScript truthiness of what [getItem] returned: [null] and [''] are
    false. *)
Definition truthy (v : option Stored) : bool :=
  match v with
  | None | Some Blank => false
  | Some _ => true
  end.

Definition JSON_parse (v : option Stored) : Js (list CartItem) :=
  match v with
  | Some (Lines l) => mret l
  | _ => throw SyntaxError
  end.

(** [localCart ? JSON.parse(localCart) : []] *)
Definition parse_or_empty (localCart : option Stored) : Js (list CartItem) :=
  if truthy localCart then JSON_parse localCart else mret [].

(** [Array.prototype.findIndex]: the index of the first element satisfying
    [f], or [-1]. *)
Fixpoint findIndex_from {A} (f : A → bool) (l : list A) (i : Z) : Z :=
  match l with
  | [] => -1
  | x :: l' => if f x then i else findIndex_from f l' (i + 1)
  end.
Definition findIndex {A} (f : A → bool) (l : list A) : Z := findIndex_from f l 0.

(** ** The backend: [supabase.from(table)...]

    A request first crosses the network ([transit]): the next entry of
    [outages] says whether it is lost (none is, once the script is used up),
    and then the response carries an error and the tables are untouched.  Otherwise Postgres runs the
    statement under the constraints of the migration: [cart_items.product_id]
    references [products(id)], [qty] is an [INTEGER], and [(user_id,
    product_id)] is unique. *)

Definition transit : Js bool :=
  lost ← gets (λ w, default false (head (outages w)));
  modify (λ w, set_outages (tail (outages w)) w);;
  mret (negb lost).

Definition int4 (q : Z) : bool := (-2147483648 <=? q) && (q <=? 2147483647).

(** [.from('products').select(...).eq('id', productId).single()]: the
    [data] of the response ([null] on any error, also when no row matches). *)
Definition select_product (productId : string) : Js (option Product) :=
  ok ← transit;
  if ok : bool then gets (λ w, products w !! productId) else mret None.

(** [.from('cart_items').upsert({user_id, product_id, qty}, {onConflict:
    'user_id,product_id'})]: [INSERT ... ON CONFLICT (user_id, product_id) DO
    UPDATE SET qty = EXCLUDED.qty]; the [error] of the response. *)
Definition upsert_cart_item (user_id productId : string) (q : Z) : Js (option Exn) :=
  ok ← transit;
  if ok : bool then
    if negb (int4 q) then mret (Some (PostgrestError "22003"))
    else
      referenced ← gets (λ w, products w !! productId);
      match referenced with
      | None => mret (Some (PostgrestError "23503"))
      | Some _ =>
          modify (λ w, set_cart_items (<[(user_id, productId) := q]> (cart_items w)) w);;
          mret None
      end
  else mret (Some (PostgrestError "fetch")).

(** [.from('cart_items').update({ qty }).eq('user_id', ..).eq('product_id', ..)] *)
Definition update_cart_item (user_id productId : string) (q : Z) : Js (option Exn) :=
  ok ← transit;
  if ok : bool then
    if negb (int4 q) then mret (Some (PostgrestError "22003"))
    else
      modify (λ w, set_cart_items (alter (λ _, q) (user_id, productId) (cart_items w)) w);;
      mret None
  else mret (Some (PostgrestError "fetch")).

(** [.from('cart_items').delete().eq('user_id', ..).eq('product_id', ..)] *)
Definition delete_cart_item (user_id productId : string) : Js (option Exn) :=
  ok ← transit;
  if ok : bool then
    modify (λ w, set_cart_items (delete (user_id, productId) (cart_items w)) w);;
    mret None
  else mret (Some (PostgrestError "fetch")).

(** [.from('cart_items').delete().eq('user_id', ..)] *)
Definition delete_cart (user_id : string) : Js (option Exn) :=
  ok ← transit;
  if ok : bool then
    modify (λ w, set_cart_items
                   (filter (λ kv : (string * string) * Z, kv.1.1 ≠ user_id) (cart_items w)) w);;
    mret None
  else mret (Some (PostgrestError "fetch")).

(** [s || d] on strings: the empty string is false. *)
Definition or_else (s d : string) : string := if decide (s = ""%string) then d else s.

(** [if (error) throw error;] *)
Definition throw_if (error : option Exn) : Js unit :=
  match error with
  | Some e => throw e
  | None => mret tt
  end.

(** ** CartProvider *)

Section CartProvider.

(** [const { user } = useAuth()]: the id of the signed-in user, if any.
    All the functions below close over it. *)
Variable user : option string.

Definition loadLocalCart : Js unit :=
  localCart ← getItem;
  if truthy localCart then
    parsed ← JSON_parse localCart;
    setItems parsed
  else mret tt.

Definition addToCart (productId : string) (q : Z) : Js unit :=
  match user with
  | None =>
      localCart ← getItem;
      currentItems ← parse_or_empty localCart;
      product ← select_product productId;
      match product with
      | None => mret tt
      | Some product =>
          let existingIndex :=
            findIndex (λ item, bool_decide (product_id item = productId)) currentItems in
          currentItems ←
            (if 0 <=? existingIndex then
               mret (alter (λ item, with_qty item (qty item + q))
                           (Z.to_nat existingIndex) currentItems)
             else
               rid ← random_id;
               mret (currentItems ++
                     [mkCartItem rid productId (p_title product) (p_price product) q
                                 (p_images product)]));
          setItem currentItems;;
          setItems currentItems;;
          toast (mkToast "Added to cart"
                         (p_title product +:+ " has been added to your cart.") false)
      end
  | Some user_id =>
      try_catch
        (error ← upsert_cart_item user_id productId q;
         throw_if error;;
         product ← select_product productId;
         toast (mkToast "Added to cart"
                        (or_else (from_option p_title ""%string product) "Item"
                           +:+ " has been added to your cart.") false))
        (λ error,
           console_error "Error adding to cart:" error;;
           toast (mkToast "Error" "Failed to add item to cart." true))
  end.

Definition syncLocalCart : Js unit :=
  match user with
  | None => mret tt
  | Some _ =>
      localCart ← getItem;
      if truthy localCart then
        localItems ← JSON_parse localCart;
        for_of localItems (λ item, addToCart (product_id item) (qty item));;
        removeItem
      else mret tt
  end.

Definition removeFromCart (productId : string) : Js unit :=
  match user with
  | None =>
      localCart ← getItem;
      currentItems ← parse_or_empty localCart;
      let updatedItems := filter (λ item, product_id item ≠ productId) currentItems in
      setItem updatedItems;;
      setItems updatedItems
  | Some user_id =>
      try_catch
        (error ← delete_cart_item user_id productId;
         throw_if error;;
         toast (mkToast "Removed from cart" "Item has been removed from your cart." false))
        (λ error,
           console_error "Error removing from cart:" error;;
           toast (mkToast "Error" "Failed to remove item from cart." true))
  end.

Definition updateQuantity (productId : string) (q : Z) : Js unit :=
  if q <=? 0 then removeFromCart productId
  else
    match user with
    | None =>
        localCart ← getItem;
        currentItems ← parse_or_empty localCart;
        let updatedItems :=
          (λ item, if decide (product_id item = productId) then with_qty item q else item)
            <$> currentItems in
        setItem updatedItems;;
        setItems updatedItems
    | Some user_id =>
        try_catch
          (error ← update_cart_item user_id productId q;
           throw_if error)
          (λ error,
             console_error "Error updating quantity:" error;;
             toast (mkToast "Error" "Failed to update quantity." true))
    end.

Definition clearCart : Js unit :=
  match user with
  | None =>
      removeItem;;
      setItems []
  | Some user_id =>
      try_catch
        (error ← delete_cart user_id;
         throw_if error)
        (λ error, console_error "Error clearing cart:" error)
  end.

End CartProvider.

(** The four mutations the provider offers, for statements that range over
    all of them. *)
Inductive Mutation :=
  | AddToCart (productId : string) (q : Z)
  | UpdateQuantity (productId : string) (q : Z)
  | RemoveFromCart (productId : string)
  | ClearCart.

Definition perform (user : option string) (m : Mutation) : Js unit :=
  match m with
  | AddToCart p q => addToCart user p q
  | UpdateQuantity p q => updateQuantity user p q
  | RemoveFromCart p => removeFromCart user p
  | ClearCart => clearCart user
  end.

(** ** [public.generate_order_id()] *)

Module OrderId.

(** The columns of [public.orders] the function reads. *)
Record Order := mkOrder {
  order_id : string;
  user_id : string;
}.

(** [x::BIGINT::TEXT] and [FLOOR(x)::TEXT] of a whole number: its decimal
    digits, after a minus sign when negative. *)
Definition to_text (z : Z) : string := NilZero.string_of_int (Z.to_int z).

(** [n] characters of [fill] repeated, continuing from [rest]. *)
Fixpoint padding (n : nat) (fill rest : string) : string :=
  match n with
  | O => EmptyString
  | S n' =>
      match rest with
      | String c rest' => String c (padding n' fill rest')
      | EmptyString =>
          match fill with
          | String c rest' => String c (padding n' fill rest')
          | EmptyString => EmptyString
          end
      end
  end.

(** [LPAD(s, n, fill)]: [s] cut to its first [n] characters when it is
    longer, and otherwise filled up on the left to length [n]. *)
Definition LPAD (s : string) (n : nat) (fill : string) : string :=
  if (n <=? String.length s)%nat then String.substring 0 n s
  else padding (n - String.length s) fill fill +:+ s.

(** [RIGHT(s, n)]: the last [n] characters of [s]. *)
Definition RIGHT (s : string) (n : nat) : string :=
  String.substring (String.length s - n) n s.

(** The body of the loop up to the collision check, for
    [now_ms = (EXTRACT(EPOCH FROM NOW()) * 1000)::BIGINT] and
    [r = FLOOR(RANDOM() * 100)]. *)
Definition candidate (now_ms r : Z) : string :=
  let new_id := LPAD (to_text now_ms) 10 "0" +:+ LPAD (to_text r) 2 "0" in
  RIGHT new_id 12.

(** [SELECT EXISTS(SELECT 1 FROM public.orders WHERE order_id = new_id)] *)
Definition exists_check (orders : list Order) (new_id : string) : bool :=
  existsb (λ o, String.eqb (order_id o) new_id) orders.

(** The function, run for at most [fuel] rounds of its [LOOP].  [NOW()]
    is the start of the transaction, the same in every round;
    [random n] is [FLOOR(RANDOM() * 100)] at the [n]-th call of
    [RANDOM()], and [call] counts the calls made so far.  [None]: the
    loop is still running after [fuel] rounds. *)
Fixpoint generate_order_id (fuel : nat) (now_ms : Z) (random : nat → Z) (call : nat)
    (orders : list Order) : option string :=
  match fuel with
  | O => None
  | S fuel' =>
      let new_id := candidate now_ms (random call) in
      if negb (exists_check orders new_id) then Some new_id
      else generate_order_id fuel' now_ms random (S call) orders
  end.

End OrderId.

(** ** What the pages do with the provider *)

(** [items.reduce((sum, item) => sum + item.qty, 0)], the count the header
    shows on the cart. *)
Definition totalItems (items : list CartItem) : Z :=
  foldl (λ sum item, sum + qty item) 0 items.

(** [ProductGrid.handleAddToCart]: the button under a product.  A product of
    the grid is a row of the catalogue with its id. *)
Definition handleAddToCart (user : option string) (product : string * Product) : Js unit :=
  addToCart user product.1 1.

(** [CartPage.handleQuantityChange]: the minus and plus buttons and the
    number field of a cart line. *)
Definition handleQuantityChange (user : option string) (productId : string) (newQty : Z) :
    Js unit :=
  if newQty <? 1 then mret tt else updateQuantity user productId newQty.

(** [n] runs of [m], each run to its end before the next starts.  Handlers
    of clicks are not serialised by the page: this is the case where no
    two calls overlap. *)
Fixpoint times (n : nat) (m : Js unit) : Js unit :=
  match n with
  | O => mret tt
  | S n' => m ;; times n' m
  end.

(** ** BannerCarousel *)

Module BannerCarousel.

Record Banner := mkBanner {
  id : string;
  title : string;
  image_url : string;
  link_url : option string;
  display_order : Z;
}.

(** [a % b] on whole numbers: [NaN] when [b] is zero, and otherwise the
    remainder that has the sign of [a]. *)
Definition js_rem (a b : Z) : option Z :=
  if b =? 0 then None else Some (Z.rem a b).

(** [setCurrentIndex((prev) => (prev - 1 + banners.length) % banners.length)] *)
Definition goToPrevious (banners : list Banner) (prev : Z) : option Z :=
  js_rem (prev - 1 + Z.of_nat (length banners)) (Z.of_nat (length banners)).

(** [setCurrentIndex((prev) => (prev + 1) % banners.length)] *)
Definition goToNext (banners : list Banner) (prev : Z) : option Z :=
  js_rem (prev + 1) (Z.of_nat (length banners)).

End BannerCarousel.

(** ** MyOrders *)

Module MyOrders.

(** [CREATE TYPE public.order_status AS ENUM (...)], in the order of the
    declaration. *)
Definition order_status : list string :=
  ["placed"; "confirmed"; "packaging"; "out_for_delivery"; "delivered"; "cancelled"]%string.

Definition getStatusProgress (status : string) : Z :=
  if (status =? "placed")%string then 25
  else if (status =? "confirmed")%string then 25
  else if (status =? "packaging")%string then 50
  else if (status =? "out_for_delivery")%string then 75
  else if (status =? "delivered")%string then 100
  else if (status =? "cancelled")%string then 0
  else 0.

Definition getStatusLabel (status : string) : string :=
  if (status =? "placed")%string then "Order Placed"
  else if (status =? "confirmed")%string then "Confirmed"
  else if (status =? "packaging")%string then "Packaging"
  else if (status =? "out_for_delivery")%string then "Out for Delivery"
  else if (status =? "delivered")%string then "Delivered"
  else if (status =? "cancelled")%string then "Cancelled"
  else "Unknown".

End MyOrders.

(** * Properties *)

(** ** Vocabulary *)

(** The lines the anonymous path works on: what
    [localCart ? JSON.parse(localCart) : []] evaluates to when it does not
    throw. *)
Definition cart_of (v : option Stored) : list CartItem :=
  match v with
  | Some (Lines l) => l
  | _ => []
  end.

(** At most one line per product. *)
Definition unique_products (l : list CartItem) : Prop := NoDup (product_id <$> l).

(** None of the next [n] backend requests is lost in transit. *)
Definition arrive (n : nat) (w : World) : bool := forallb negb (take n (outages w)).

(** What [select_product p] answers in [w]. *)
Definition found (p : string) (w : World) : option Product :=
  if default false (head (outages w)) then None else products w !! p.

(** The toast of the [catch] block of [addToCart]. *)
Definition add_failed : Toast := mkToast "Error" "Failed to add item to cart." true.

(** The line [addToCart] pushes for a product that has none yet. *)
Definition new_line (rid productId : string) (product : Product) (q : Z) : CartItem :=
  mkCartItem rid productId (p_title product) (p_price product) q (p_images product).

(** What the anonymous [addToCart] makes of the parsed lines once the
    product is found: the first line of the product gets [q] more, or a new
    line is pushed. *)
Definition add_line (p : string) (q : Z) (rid : string) (product : Product)
    (l : list CartItem) : list CartItem :=
  let existingIndex := findIndex (λ item, bool_decide (product_id item = p)) l in
  if 0 <=? existingIndex
  then alter (λ item, with_qty item (qty item + q)) (Z.to_nat existingIndex) l
  else l ++ [new_line rid p product q].

(** What [updateQuantity] maps over the parsed lines. *)
Definition set_line (p : string) (q : Z) (item : CartItem) : CartItem :=
  if decide (product_id item = p) then with_qty item q else item.

(** The loop of [syncLocalCart]. *)
Definition replay (u : string) (l : list CartItem) : Js unit :=
  for_of l (λ item, addToCart (Some u) (product_id item) (qty item)).

(** The table after upserting every line of [l] for user [u], in order. *)
Definition upserted (u : string) (l : list CartItem) (t : gmap (string * string) Z) :
    gmap (string * string) Z :=
  foldl (λ t item, <[(u, product_id item) := qty item]> t) t l.

(** Every line names a product of the catalogue and a quantity that fits
    the [INTEGER] column. *)
Definition acceptable (w : World) (l : list CartItem) : Prop :=
  Forall (λ item, is_Some (products w !! product_id item) ∧ int4 (qty item) = true) l.

Definition is_digit (c : Ascii.ascii) : bool :=
  (48 <=? Ascii.nat_of_ascii c)%nat && (Ascii.nat_of_ascii c <=? 57)%nat.

Fixpoint all_digits (s : string) : bool :=
  match s with
  | EmptyString => true
  | String c s' => is_digit c && all_digits s'
  end.

(** A 12-digit string. *)
Definition twelve_digits (s : string) : Prop :=
  String.length s = 12%nat ∧ all_digits s = true.

(** ** A small shop, for the examples *)

Definition apple : Product := mkProduct "Apple" 10000 ["apple.jpg"%string].
Definition bread : Product := mkProduct "Bread" 5000 [].
Definition catalogue : gmap string Product := <["A"%string := apple]> (<["B"%string := bread]> ∅).

(** A browser that has never seen the shop. *)
Definition first_visit : World :=
  mkWorld None [] catalogue ∅ [] ["0.4fzyo82mvyr"%string] [] [].

(** The key holds text that is not JSON. *)
Definition corrupted : World :=
  mkWorld (Some Malformed) [] catalogue ∅ [] [] [] [].

(** Sign-in with local cart [{A:2, B:1}] while the account's cart is
    [{B:3}]. *)
Definition at_sign_in : World :=
  mkWorld (Some (Lines [new_line "0.a" "A" apple 2; new_line "0.b" "B" bread 1]))
          [] catalogue (<[("u"%string, "B"%string) := 3]> ∅) [] [] [] [].

(** Sign-in with local cart [{A:2, C:1}] after product [C] was withdrawn
    from the catalogue, and with the first request lost in transit. *)
Definition at_sign_in_stale : World :=
  mkWorld (Some (Lines [new_line "0.a" "A" apple 2; new_line "0.c" "C" bread 1]))
          [] catalogue ∅ [true] [] [] [].

(** An anonymous cart [{B:1}]. *)
Definition browsing : World :=
  mkWorld (Some (Lines [new_line "0.b" "B" bread 1])) [new_line "0.b" "B" bread 1]
          catalogue ∅ [] ["0.x"%string] [] [].

(** A signed-in session whose cart is [{B:3}]. *)
Definition signed_in : World :=
  mkWorld None [] catalogue (<[("u"%string, "B"%string) := 3]> ∅) [] [] [] [].

(** Orders placed in the second 1758689857, and a source of randomness that
    first repeats one of them. *)
Definition placed : list OrderId.Order := [OrderId.mkOrder "175868985742" "u"].
Definition dice (n : nat) : Z := match n with O => 42 | _ => 7 end.

(** ** More vocabulary and examples *)

(** [Number.MAX_SAFE_INTEGER] *)
Definition MAX_SAFE_INTEGER : Z := 2 ^ 53 - 1.

(** [Number.isSafeInteger] on whole numbers. *)
Definition safe_integer (z : Z) : Prop := - MAX_SAFE_INTEGER ≤ z ≤ MAX_SAFE_INTEGER.

(** The sum [a + b] of the code, computed on doubles, is the sum of the
    whole numbers: both operands and the result are safe integers. *)
Definition exact_sum (a b : Z) : Prop :=
  safe_integer a ∧ safe_integer b ∧ safe_integer (a + b).

(** The quantities of [l] add up exactly in [totalItems]: none is negative
    and the total is a safe integer, so every partial sum is one. *)
Definition exact_total (l : list CartItem) : Prop :=
  Forall (λ item, 0 ≤ qty item) l ∧ totalItems l ≤ MAX_SAFE_INTEGER.

(** What the anonymous [addToCart] does to a line when the product has one:
    [q] more for the line of [p], the others as they are. *)
Definition bump_line (p : string) (q : Z) (item : CartItem) : CartItem :=
  if decide (product_id item = p) then with_qty item (qty item + q) else item.



(** The hundred ids [generate_order_id] can draw at the instant [now_ms],
    all placed. *)
Definition sold_out (now_ms : Z) : list OrderId.Order :=
  (λ r : nat, OrderId.mkOrder (OrderId.candidate now_ms (Z.of_nat r)) "u") <$> seq 0 100.

(** An anonymous cart [{A:2, B:1}] in a browser that renders it. *)
Definition two_lines : World :=
  mkWorld (Some (Lines [new_line "0.a" "A" apple 2; new_line "0.b" "B" bread 1]))
          [new_line "0.a" "A" apple 2; new_line "0.b" "B" bread 1]
          catalogue ∅ [] ["0.y"%string] [] [].

(** Two accounts with a cart each. *)
Definition two_accounts : World :=
  mkWorld None [] catalogue
          (<[("u"%string, "A"%string) := 2]>
             (<[("u"%string, "B"%string) := 3]> (<[("v"%string, "A"%string) := 5]> ∅)))
          [] [] [] [].

(** Three banners. *)
Definition three_banners : list BannerCarousel.Banner :=
  [BannerCarousel.mkBanner "1" "Sale" "sale.jpg" None 1;
   BannerCarousel.mkBanner "2" "New" "new.jpg" (Some "#"%string) 2;
   BannerCarousel.mkBanner "3" "Gifts" "gifts.jpg" None 3].

(** ** Running provider code *)

Ltac js_unfold :=
  unfold perform, addToCart, updateQuantity, removeFromCart, clearCart, syncLocalCart,
    loadLocalCart, parse_or_empty, JSON_parse, select_product, upsert_cart_item,
    update_cart_item, delete_cart_item, delete_cart, throw_if, try_catch, transit,
    random_id, getItem, setItem, removeItem, setItems, toast, console_error, gets,
    modify, throw, outcome, after;
  unfold mbind, mret, Js_bind, Js_ret.

Ltac js_run := js_unfold; simpl.

Lemma bind_normal {A B} (m : Js A) (f : A → Js B) w a :
  outcome (m w) = Normal a → (m ≫= f) w = f a (after (m w)).
Proof.
  unfold outcome, after, mbind, Js_bind. destruct (m w) as [c w']. simpl. by intros ->.
Qed.

Lemma malformed_or_readable (v : option Stored) : v = Some Malformed ∨ v ≠ Some Malformed.
Proof. destruct v as [[| |l]|]; auto. Qed.

Lemma arrive_next n w :
  arrive (S n) w = true →
  default false (head (outages w)) = false ∧ forallb negb (take n (tail (outages w))) = true.
Proof.
  unfold arrive. destruct (outages w) as [|b o]; simpl.
  - by destruct n.
  - intros [Hb Ho]%andb_prop. by destruct b.
Qed.

Lemma arrive_one n w : arrive (S n) w = true → arrive 1 w = true.
Proof.
  intros [H _]%arrive_next. unfold arrive.
  destruct (outages w) as [|[] o]; simpl in *; done.
Qed.

Lemma arrive_after_two n w w' :
  arrive (S (S n)) w = true → outages w' = tail (tail (outages w)) → arrive n w' = true.
Proof.
  intros [_ H]%arrive_next Ho. unfold arrive. rewrite Ho.
  destruct (outages w) as [|b [|b' o]]; simpl in *; try by destruct n.
  by apply andb_prop in H as [_ H].
Qed.

Lemma found_arrive p w n : arrive (S n) w = true → found p w = products w !! p.
Proof. intros [H _]%arrive_next. unfold found. by rewrite H. Qed.

(** ** [findIndex] *)

Section FindIndex.
Context {A : Type} (f : A → bool).

Lemma findIndex_from_none l i :
  Forall (λ x, f x = false) l → findIndex_from f l i = -1.
Proof.
  intros Hl. revert i. induction Hl as [|x l Hx _ IH]; intros i; simpl; [done|].
  by rewrite Hx, IH.
Qed.

Lemma findIndex_from_skip l y t i :
  Forall (λ x, f x = false) l → f y = true →
  findIndex_from f (l ++ y :: t) i = i + Z.of_nat (length l).
Proof.
  intros Hl Hy. revert i. induction Hl as [|x l Hx _ IH]; intros i; simpl.
  - rewrite Hy. lia.
  - rewrite Hx, IH. lia.
Qed.

Lemma findIndex_from_miss l i :
  0 ≤ i → findIndex_from f l i < 0 → Forall (λ x, f x = false) l.
Proof.
  revert i. induction l as [|x l IH]; intros i Hi H; simpl in *; [constructor|].
  destruct (f x) eqn:E; [lia|]. constructor; [done|]. apply (IH (i + 1)); [lia|done].
Qed.

Lemma findIndex_none l : Forall (λ x, f x = false) l → findIndex f l = -1.
Proof. apply findIndex_from_none. Qed.

Lemma findIndex_skip l y t :
  Forall (λ x, f x = false) l → f y = true →
  findIndex f (l ++ y :: t) = Z.of_nat (length l).
Proof. intros. unfold findIndex. rewrite findIndex_from_skip by done. lia. Qed.

Lemma findIndex_miss l : findIndex f l < 0 → Forall (λ x, f x = false) l.
Proof. apply findIndex_from_miss. lia. Qed.

End FindIndex.

(** ** Lines and products *)

Lemma no_line_for p (l : list CartItem) :
  p ∉ product_id <$> l ↔ Forall (λ item, bool_decide (product_id item = p) = false) l.
Proof.
  rewrite Forall_forall. split.
  - intros Hp x Hx. apply bool_decide_eq_false. intros <-.
    apply Hp, list_elem_of_fmap. eauto.
  - intros Hl Hin. apply list_elem_of_fmap in Hin as (x & -> & Hx).
    specialize (Hl x Hx). by apply bool_decide_eq_false in Hl.
Qed.

Lemma product_id_alter g i (l : list CartItem) :
  (∀ x, product_id (g x) = product_id x) →
  product_id <$> alter g i l = product_id <$> l.
Proof.
  intros Hg. revert i. induction l as [|x l IH]; intros [|i]; csimpl; f_equal; auto.
Qed.

Lemma product_id_set_line p q (l : list CartItem) :
  product_id <$> (set_line p q <$> l) = product_id <$> l.
Proof.
  rewrite <- list_fmap_compose. apply list_fmap_ext. intros _ x _.
  unfold set_line. simpl. by case_decide.
Qed.

Lemma set_line_absent p q (l : list CartItem) :
  p ∉ product_id <$> l → set_line p q <$> l = l.
Proof.
  intros Hp. induction l as [|x l IH]; csimpl; [done|].
  rewrite fmap_cons, not_elem_of_cons in Hp. destruct Hp as [Hx Hl].
  rewrite IH by done. unfold set_line. case_decide; congruence.
Qed.

Lemma unique_filter p (l : list CartItem) :
  unique_products l → unique_products (filter (λ item, product_id item ≠ p) l).
Proof.
  unfold unique_products. induction l as [|x l IH]; simpl; [done|].
  rewrite NoDup_cons. intros [Hx Hl].
  rewrite filter_cons. case_decide; [|auto].
  rewrite fmap_cons, NoDup_cons. split; [|auto].
  intros Hin. apply Hx. apply list_elem_of_fmap in Hin as (y & -> & Hy).
  apply list_elem_of_fmap. exists y. split; [done|].
  by apply list_elem_of_filter in Hy as [_ ?].
Qed.

Lemma unique_snoc (l : list CartItem) x :
  unique_products l → product_id x ∉ product_id <$> l → unique_products (l ++ [x]).
Proof.
  unfold unique_products. intros Hl Hx. rewrite fmap_app. simpl.
  apply NoDup_app. split; [done|]. split; [|apply NoDup_singleton].
  intros y Hy Hy'. by apply list_elem_of_singleton in Hy' as ->.
Qed.

Lemma unique_add_line p q rid product (l : list CartItem) :
  unique_products l → unique_products (add_line p q rid product l).
Proof.
  intros Hl. unfold add_line. simpl. case_match eqn:Hf.
  - unfold unique_products. by rewrite product_id_alter.
  - apply unique_snoc; [done|]. simpl. apply no_line_for, findIndex_miss. lia.
Qed.

Lemma add_line_absent p q rid product (l : list CartItem) :
  p ∉ product_id <$> l → add_line p q rid product l = l ++ [new_line rid p product q].
Proof.
  intros Hp. unfold add_line. by rewrite findIndex_none by by apply no_line_for.
Qed.

Lemma add_line_last p q q' rid rid' product product' (l : list CartItem) :
  p ∉ product_id <$> l →
  add_line p q' rid' product' (l ++ [new_line rid p product q])
  = l ++ [new_line rid p product (q + q')].
Proof.
  intros Hp. unfold add_line.
  rewrite findIndex_skip; [|by apply no_line_for|by apply bool_decide_eq_true].
  rewrite Nat2Z.id, (proj2 (Z.leb_le _ _)) by lia.
  replace (length l) with (length l + 0)%nat by lia.
  by rewrite alter_app_r.
Qed.

Lemma bump_line_absent p q (l : list CartItem) :
  p ∉ product_id <$> l → bump_line p q <$> l = l.
Proof.
  intros Hp. induction l as [|x l IH]; csimpl; [done|].
  rewrite fmap_cons, not_elem_of_cons in Hp. destruct Hp as [Hx Hl].
  rewrite IH by done. unfold bump_line. case_decide; congruence.
Qed.

Lemma add_line_present p q rid product (l : list CartItem) :
  unique_products l → p ∈ product_id <$> l →
  add_line p q rid product l = bump_line p q <$> l.
Proof.
  unfold unique_products. intros Hl (x & Hx & Hin)%list_elem_of_fmap.
  apply list_elem_of_split in Hin as (l1 & l2 & ->).
  rewrite fmap_app, fmap_cons, <- Hx in Hl.
  apply NoDup_app in Hl as (_ & Hl1 & Hl2). apply NoDup_cons in Hl2 as [Hl2 _].
  assert (Hp1 : p ∉ product_id <$> l1).
  { intros Hp1. apply (Hl1 p Hp1). left. }
  unfold add_line.
  rewrite findIndex_skip; [|by apply no_line_for|by apply bool_decide_eq_true].
  rewrite Nat2Z.id, (proj2 (Z.leb_le _ _)) by lia.
  replace (length l1) with (length l1 + 0)%nat at 1 by lia.
  rewrite alter_app_r, fmap_app, fmap_cons, !bump_line_absent by done.
  simpl. unfold bump_line at 1. by rewrite decide_True.
Qed.

Lemma filter_lines_absent p (l : list CartItem) :
  p ∉ product_id <$> l → filter (λ item, product_id item = p) l = [].
Proof.
  induction l as [|x l IH]; [done|].
  rewrite fmap_cons, not_elem_of_cons. intros [Hx Hl].
  rewrite filter_cons_False by congruence. auto.
Qed.

Lemma filter_lines_snoc p (l : list CartItem) x :
  p ∉ product_id <$> l → product_id x = p →
  filter (λ item, product_id item = p) (l ++ [x]) = [x].
Proof.
  intros Hp Hx. rewrite filter_app, filter_lines_absent by done.
  simpl. by rewrite filter_cons_True.
Qed.

(** ** The anonymous path, run *)

Section Anonymous.
Variables (p : string) (q : Z) (w : World).
Hypothesis readable : storage w ≠ Some Malformed.

Lemma addToCart_anonymous_found product :
  found p w = Some product →
  let l' := add_line p q (default "0"%string (head (entropy w))) product
              (cart_of (storage w)) in
  let r := addToCart None p q w in
  outcome r = Normal tt ∧
  storage (after r) = Some (Lines l') ∧ items (after r) = l' ∧
  products (after r) = products w ∧ outages (after r) = tail (outages w).
Proof using readable.
  unfold found, add_line. destruct w as [st it pr ci ou en to co]. simpl in *.
  intros Hp. js_run.
  destruct st as [[| |l]|]; simpl in *; try done;
    destruct (default false (head ou)); simpl; try done;
    rewrite Hp; simpl; try destruct (0 <=? findIndex _ l); done.
Qed.

Lemma addToCart_anonymous_not_found :
  found p w = None →
  let r := addToCart None p q w in
  outcome r = Normal tt ∧
  storage (after r) = storage w ∧ items (after r) = items w ∧
  cart_items (after r) = cart_items w ∧
  toasts (after r) = toasts w ∧ console (after r) = console w.
Proof using readable.
  unfold found. destruct w as [st it pr ci ou en to co]. simpl in *.
  intros Hp. js_run.
  destruct st as [[| |l]|]; simpl in *; try done;
    destruct (default false (head ou)); simpl; try done; by rewrite Hp.
Qed.

Lemma updateQuantity_anonymous_run :
  1 ≤ q →
  let l' := set_line p q <$> cart_of (storage w) in
  let r := updateQuantity None p q w in
  outcome r = Normal tt ∧ storage (after r) = Some (Lines l') ∧ items (after r) = l' ∧
  cart_items (after r) = cart_items w ∧ toasts (after r) = toasts w ∧
  console (after r) = console w.
Proof using readable.
  intros Hq. destruct w as [st it pr ci ou en to co]. simpl in *.
  js_run. rewrite (proj2 (Z.leb_gt _ _)) by lia.
  destruct st as [[| |l]|]; simpl in *; done.
Qed.

End Anonymous.

Lemma thrown_is_unchanged (m : Mutation) (w : World) :
  storage w = Some Malformed → after (perform None m w) = w ∨ m = ClearCart.
Proof.
  destruct w as [st it pr ci ou en to co]. simpl. intros ->.
  destruct m as [p q|p q|p|]; js_run; auto. destruct (q <=? 0); auto.
Qed.

(** ** The local cart *)

(** C4 (as the code has it).  For a stored value that is missing, blank,
    not JSON, or the array of lines the provider writes: [loadLocalCart]
    returns normally when the key is missing or blank, and renders the
    stored lines when the value is such an array.  When the value is not
    JSON, [JSON.parse] throws a [SyntaxError] that nothing catches: the call
    ends in that exception and changes nothing. *)
Theorem loadLocalCart_outcomes w :
  (truthy (storage w) = false → outcome (loadLocalCart w) = Normal tt) ∧
  (∀ l, storage w = Some (Lines l) →
   outcome (loadLocalCart w) = Normal tt ∧ items (after (loadLocalCart w)) = l) ∧
  (storage w = Some Malformed →
   outcome (loadLocalCart w) = Throw SyntaxError ∧ after (loadLocalCart w) = w).
Proof.
  destruct w as [st it pr ci ou en to co]. simpl.
  split_and!; [intros H|intros l ->|intros ->]; js_run; [|done..].
  by destruct st as [[| |l]|].
Qed.

Lemma loadLocalCart_outcomes_witness :
  outcome (loadLocalCart first_visit) = Normal tt ∧
  outcome (loadLocalCart browsing) = Normal tt ∧
  items (after (loadLocalCart browsing)) = [new_line "0.b" "B" bread 1] ∧
  outcome (loadLocalCart corrupted) = Throw SyntaxError.
Proof.
  destruct (loadLocalCart_outcomes first_visit) as (Hmissing & _ & _).
  destruct (loadLocalCart_outcomes browsing) as (_ & Hlines & _).
  destruct (loadLocalCart_outcomes corrupted) as (_ & _ & Hbad).
  destruct (Hlines _ eq_refl) as [Hn Hl].
  destruct (Hbad eq_refl) as [Hthrow _].
  split; [exact (Hmissing eq_refl)|]. split; [exact Hn|]. split; [exact Hl|exact Hthrow].
Defined.

(** C4, refuted as stated: with text under the key that is not JSON, the
    load does not show an empty cart; it throws. *)
Lemma loadLocalCart_throws_on_malformed :
  outcome (loadLocalCart corrupted) = Throw SyntaxError ∧
  outcome (loadLocalCart corrupted) ≠ Normal tt.
Proof. split; [reflexivity|discriminate]. Qed.

(** C6.  On the anonymous path every mutation keeps the products of the cart
    distinct, in the stored cart and in the rendered one: [updateQuantity]
    maps over the lines, [removeFromCart] filters them, [clearCart] drops
    them, and [addToCart] pushes a line only when the product has none.  A
    repeated add, the product being found, raises the quantity of the
    product's line by [q] (the sum being exact) and leaves the other lines
    and their number as they are. *)
Theorem anonymous_mutations_keep_products_unique (m : Mutation) (w : World) :
  unique_products (cart_of (storage w)) →
  unique_products (items w) →
  (unique_products (cart_of (storage (after (perform None m w)))) ∧
   unique_products (items (after (perform None m w)))) ∧
  (∀ p q product item,
     m = AddToCart p q →
     arrive 1 w = true → products w !! p = Some product →
     item ∈ cart_of (storage w) → product_id item = p →
     exact_sum (qty item) q →
     cart_of (storage (after (perform None m w))) = bump_line p q <$> cart_of (storage w) ∧
     items (after (perform None m w)) = bump_line p q <$> cart_of (storage w) ∧
     with_qty item (qty item + q) ∈ cart_of (storage (after (perform None m w)))).
Proof.
  intros Hs Hi. split.
  - destruct (malformed_or_readable (storage w)) as [Hbad|Hok].
    { destruct (thrown_is_unchanged m w Hbad) as [->| ->]; [done|].
      js_run. split; constructor. }
    destruct m as [p q|p q|p|]; cbn [perform].
    + destruct (found p w) as [product|] eqn:Hp.
      * destruct (addToCart_anonymous_found p q w Hok product Hp) as (_ & -> & -> & _).
        split; by apply unique_add_line.
      * destruct (addToCart_anonymous_not_found p q w Hok Hp) as (_ & -> & -> & _). done.
    + assert (Hrm : unique_products
                (filter (λ item, product_id item ≠ p) (cart_of (storage w))))
        by by apply unique_filter.
      assert (Hset : unique_products (set_line p q <$> cart_of (storage w)))
        by (unfold unique_products; by rewrite product_id_set_line).
      destruct w as [st it pr ci ou en to co]. simpl in *.
      js_run. destruct (q <=? 0); simpl;
        destruct st as [[| |l]|]; simpl in *; done.
    + assert (Hrm : unique_products
                (filter (λ item, product_id item ≠ p) (cart_of (storage w))))
        by by apply unique_filter.
      destruct w as [st it pr ci ou en to co]. simpl in *.
      js_run. destruct st as [[| |l]|]; simpl in *; done.
    + js_run. split; constructor.
  - intros p q product item -> Ha Hprod Hin Hp _. cbn [perform].
    assert (Hok : storage w ≠ Some Malformed).
    { intros Hbad. rewrite Hbad in Hin. by apply elem_of_nil in Hin. }
    assert (Hf : found p w = Some product) by (by rewrite (found_arrive p w 0)).
    assert (Hhas : p ∈ product_id <$> cart_of (storage w)).
    { apply list_elem_of_fmap. eauto. }
    destruct (addToCart_anonymous_found p q w Hok product Hf) as (_ & -> & -> & _).
    simpl. rewrite add_line_present by done. split_and!; [done..|].
    apply list_elem_of_fmap. exists item. split; [|done].
    unfold bump_line. by rewrite decide_True.
Qed.

Lemma anonymous_mutations_keep_products_unique_witness :
  unique_products (cart_of (storage (after (perform None (AddToCart "B" 4) browsing)))) ∧
  cart_of (storage (after (perform None (AddToCart "B" 4) browsing)))
  = [new_line "0.b" "B" bread 5] ∧
  items (after (perform None (AddToCart "B" 4) browsing)) = [new_line "0.b" "B" bread 5].
Proof.
  destruct (anonymous_mutations_keep_products_unique (AddToCart "B" 4) browsing)
    as [[Hu _] Hadd]; [apply NoDup_singleton..|].
  destruct (Hadd "B"%string 4 bread (new_line "0.b" "B" bread 1)) as (Hcart & Hitems & _).
  - reflexivity.
  - reflexivity.
  - reflexivity.
  - apply list_elem_of_here.
  - reflexivity.
  - unfold exact_sum, safe_integer, MAX_SAFE_INTEGER. simpl. lia.
  - split; [exact Hu|]. split; [exact Hcart|exact Hitems].
Defined.

(** C7.  On the anonymous path, when the cart has no line for [p], the
    product exists, both look-ups get through and [q1 + q2] is exact
    (safe integers), [addToCart(p, q1)] followed by [addToCart(p, q2)]
    leaves exactly one line for [p], with quantity [q1 + q2], appended to
    the lines that were there. *)
Theorem addToCart_twice_is_one_line p q1 q2 product w :
  storage w ≠ Some Malformed →
  p ∉ product_id <$> cart_of (storage w) →
  products w !! p = Some product →
  arrive 2 w = true →
  exact_sum q1 q2 →
  let r := (addToCart None p q1 ;; addToCart None p q2) w in
  let line := new_line (default "0"%string (head (entropy w))) p product (q1 + q2) in
  outcome r = Normal tt ∧
  cart_of (storage (after r)) = cart_of (storage w) ++ [line] ∧
  items (after r) = cart_of (storage (after r)) ∧
  filter (λ item, product_id item = p) (cart_of (storage (after r))) = [line].
Proof.
  intros Hok Hp Hprod Harr _. cbv zeta.
  assert (Hf1 : found p w = Some product) by (by rewrite (found_arrive p w 1)).
  destruct (addToCart_anonymous_found p q1 w Hok product Hf1)
    as (Hn1 & Hs1 & Hi1 & Hp1 & Ho1).
  rewrite (bind_normal _ _ _ _ Hn1).
  set (w1 := after (addToCart None p q1 w)) in *.
  assert (Hok1 : storage w1 ≠ Some Malformed) by (by rewrite Hs1).
  assert (Hf2 : found p w1 = Some product).
  { unfold found. rewrite Ho1, Hp1, Hprod.
    apply arrive_next in Harr as [_ Harr]. unfold arrive in Harr.
    destruct (tail (outages w)) as [|[] o]; simpl in *; done. }
  destruct (addToCart_anonymous_found p q2 w1 Hok1 product Hf2) as (Hn2 & Hs2 & Hi2 & _).
  rewrite Hn2, Hs2, Hi2, Hs1. simpl.
  rewrite (add_line_absent p q1) by done. rewrite add_line_last by done.
  split_and!; [done..|]. by apply filter_lines_snoc.
Qed.

Lemma addToCart_twice_is_one_line_witness :
  cart_of (storage (after ((addToCart None "A" 2 ;; addToCart None "A" 3) browsing)))
  = [new_line "0.b" "B" bread 1; new_line "0.x" "A" apple 5].
Proof.
  destruct (addToCart_twice_is_one_line "A" 2 3 apple browsing) as (_ & Hcart & _).
  - discriminate.
  - simpl. apply not_elem_of_cons. split; [discriminate|apply not_elem_of_nil].
  - reflexivity.
  - reflexivity.
  - unfold exact_sum, safe_integer, MAX_SAFE_INTEGER. lia.
  - exact Hcart.
Defined.

(** C10.  On the anonymous path, [updateQuantity(p, newQty)] with
    [newQty ≥ 1] for a product without a line returns normally and leaves
    the cart as it was: no line for [p] appears, the lines are the same,
    nothing is logged or shown.  (The rendered lines are set to the stored
    ones.) *)
Theorem updateQuantity_absent_line_changes_nothing p q w :
  storage w ≠ Some Malformed →
  p ∉ product_id <$> cart_of (storage w) →
  1 ≤ q →
  let r := updateQuantity None p q w in
  outcome r = Normal tt ∧
  cart_of (storage (after r)) = cart_of (storage w) ∧
  items (after r) = cart_of (storage w) ∧
  (p ∉ product_id <$> cart_of (storage (after r))) ∧
  cart_items (after r) = cart_items w ∧
  toasts (after r) = toasts w ∧ console (after r) = console w.
Proof.
  intros Hok Hp Hq.
  destruct (updateQuantity_anonymous_run p q w Hok Hq) as (Hn & Hs & Hi & Hc & Ht & Hl).
  cbv zeta. rewrite Hn, Hs, Hi, Hc, Ht, Hl. simpl. rewrite set_line_absent by done. done.
Qed.

Lemma updateQuantity_absent_line_changes_nothing_witness :
  outcome (updateQuantity None "A" 7 browsing) = Normal tt ∧
  cart_of (storage (after (updateQuantity None "A" 7 browsing)))
  = [new_line "0.b" "B" bread 1].
Proof.
  destruct (updateQuantity_absent_line_changes_nothing "A" 7 browsing)
    as (Hn & Hcart & _).
  - discriminate.
  - simpl. apply not_elem_of_cons. split; [discriminate|apply not_elem_of_nil].
  - lia.
  - split; [exact Hn|exact Hcart].
Defined.

(** ** The account's cart *)

Section Authenticated.
Variables (u p : string) (q : Z) (w : World).

Lemma addToCart_remote_accepted product :
  arrive 1 w = true → int4 q = true → products w !! p = Some product →
  let r := addToCart (Some u) p q w in
  outcome r = Normal tt ∧
  cart_items (after r) = <[(u, p) := q]> (cart_items w) ∧
  storage (after r) = storage w ∧ products (after r) = products w ∧
  outages (after r) = tail (tail (outages w)) ∧ console (after r) = console w.
Proof.
  intros [Ha _]%arrive_next Hi Hp. destruct w as [st it pr ci ou en to co]. simpl in *.
  js_run. rewrite Ha. simpl. rewrite Hi. simpl. rewrite Hp. simpl.
  by destruct (default false (head (tail ou))).
Qed.

Lemma addToCart_remote_rejected :
  arrive 1 w = false ∨ int4 q = false ∨ products w !! p = None →
  let r := addToCart (Some u) p q w in
  outcome r = Normal tt ∧
  cart_items (after r) = cart_items w ∧
  storage (after r) = storage w ∧ items (after r) = items w ∧
  toasts (after r) = toasts w ++ [add_failed] ∧
  ∃ e, console (after r) = console w ++ [("Error adding to cart:"%string, e)].
Proof.
  unfold arrive. destruct w as [st it pr ci ou en to co]. simpl. intros H.
  js_run. destruct ou as [|[] ou]; simpl in *.
  2: by eauto 10.
  all: destruct (int4 q); simpl; [|by eauto 10].
  all: destruct (pr !! p); simpl; [|by eauto 10].
  all: by destruct H as [|[|]].
Qed.

Lemma addToCart_remote_total :
  let r := addToCart (Some u) p q w in
  outcome r = Normal tt ∧ storage (after r) = storage w ∧ products (after r) = products w.
Proof.
  destruct w as [st it pr ci ou en to co]. js_run.
  destruct (default false (head ou)); simpl; [done|].
  destruct (int4 q); simpl; [|done].
  destruct (pr !! p); simpl; [|done].
  by destruct (default false (head (tail ou))).
Qed.

Lemma updateQuantity_remote_run :
  1 ≤ q → arrive 1 w = true → int4 q = true →
  outcome (updateQuantity (Some u) p q w) = Normal tt ∧
  cart_items (after (updateQuantity (Some u) p q w))
  = alter (λ _, q) (u, p) (cart_items w).
Proof.
  intros Hq [Ha _]%arrive_next Hi. destruct w as [st it pr ci ou en to co]. simpl in *.
  js_run. rewrite (proj2 (Z.leb_gt _ _)) by lia. simpl. rewrite Ha. simpl. by rewrite Hi.
Qed.

End Authenticated.

(** C2.  For a signed-in user, when the upsert reaches the backend and is
    accepted (the product exists, the quantity fits the column),
    [addToCart(p, q)] leaves the user's line for [p] at quantity exactly
    [q], whether or not there was a line before, and touches no other line.
    An earlier quantity [q0] is replaced: the result is [q0 + q] only in
    the case [q0 = 0], where that is [q]. *)
Theorem addToCart_remote_sets_quantity u p q w :
  arrive 1 w = true → int4 q = true → is_Some (products w !! p) →
  let r := addToCart (Some u) p q w in
  outcome r = Normal tt ∧
  cart_items (after r) !! (u, p) = Some q ∧
  (∀ k, k ≠ (u, p) → cart_items (after r) !! k = cart_items w !! k) ∧
  (∀ q0, cart_items w !! (u, p) = Some q0 → q0 ≠ 0 →
         cart_items (after r) !! (u, p) ≠ Some (q0 + q)).
Proof.
  intros Ha Hi [product Hp].
  destruct (addToCart_remote_accepted u p q w product Ha Hi Hp) as (Hn & Hc & _).
  cbv zeta. rewrite Hn, Hc. split_and!; [done| | |].
  - by rewrite lookup_insert_eq.
  - intros k Hk. by rewrite lookup_insert_ne.
  - intros q0 _ Hq0. rewrite lookup_insert_eq. intros [= ?]. lia.
Qed.

Lemma addToCart_remote_sets_quantity_witness :
  cart_items signed_in !! ("u"%string, "B"%string) = Some 3 ∧
  cart_items (after (addToCart (Some "u"%string) "B" 2 signed_in)) !! ("u"%string, "B"%string)
  = Some 2.
Proof.
  split; [reflexivity|].
  destruct (addToCart_remote_sets_quantity "u" "B" 2 signed_in) as (_ & Hq & _).
  - reflexivity.
  - reflexivity.
  - exists bread. reflexivity.
  - exact Hq.
Defined.

(** C8.  [updateQuantity(p, newQty)] with [newQty ≤ 0] is
    [removeFromCart(p)], for a visitor and for a signed-in user alike: the
    two calls end in the same state.  With [newQty ≥ 1], the anonymous path
    sets the quantity of every line of [p] to [newQty] and leaves the other
    lines alone, and the signed-in path, when the request gets through, sets
    the quantity of the user's line for [p] to [newQty] if there is one and
    touches no other line. *)
Theorem updateQuantity_removes_or_sets user p q w :
  (q ≤ 0 → updateQuantity user p q w = removeFromCart user p w) ∧
  (1 ≤ q → storage w ≠ Some Malformed →
   let r := updateQuantity None p q w in
   outcome r = Normal tt ∧
   cart_of (storage (after r)) = set_line p q <$> cart_of (storage w) ∧
   items (after r) = cart_of (storage (after r)) ∧
   ∀ item, item ∈ cart_of (storage (after r)) → product_id item = p → qty item = q) ∧
  (∀ u, 1 ≤ q → arrive 1 w = true → int4 q = true →
   let r := updateQuantity (Some u) p q w in
   outcome r = Normal tt ∧
   cart_items (after r) !! (u, p) = (λ _, q) <$> cart_items w !! (u, p) ∧
   ∀ k, k ≠ (u, p) → cart_items (after r) !! k = cart_items w !! k).
Proof.
  split_and!.
  - intros Hq. unfold updateQuantity. by rewrite (proj2 (Z.leb_le _ _)).
  - intros Hq Hok.
    destruct (updateQuantity_anonymous_run p q w Hok Hq) as (Hn & Hs & Hi & _).
    cbv zeta. rewrite Hn, Hs, Hi. simpl. split_and!; [done..|].
    intros item Hin Hp. apply list_elem_of_fmap in Hin as (x & -> & _).
    unfold set_line in *. case_decide; [done|]. congruence.
  - intros u Hq Ha Hi.
    destruct (updateQuantity_remote_run u p q w Hq Ha Hi) as (Hn & Hc).
    cbv zeta. rewrite Hn, Hc. split_and!; [done| |].
    + by rewrite lookup_alter_eq.
    + intros k Hk. by rewrite lookup_alter_ne.
Qed.

Lemma updateQuantity_removes_or_sets_witness :
  updateQuantity None "B" 0 browsing = removeFromCart None "B" browsing ∧
  updateQuantity (Some "u"%string) "B" 0 signed_in
  = removeFromCart (Some "u"%string) "B" signed_in ∧
  cart_of (storage (after (updateQuantity None "B" 5 browsing)))
  = [new_line "0.b" "B" bread 5] ∧
  cart_items (after (updateQuantity (Some "u"%string) "B" 5 signed_in))
    !! ("u"%string, "B"%string) = Some 5.
Proof.
  destruct (updateQuantity_removes_or_sets None "B" 0 browsing) as (Hrm & _ & _).
  destruct (updateQuantity_removes_or_sets (Some "u"%string) "B" 0 signed_in)
    as (Hrm' & _ & _).
  destruct (updateQuantity_removes_or_sets None "B" 5 browsing) as (_ & Hset & _).
  destruct (updateQuantity_removes_or_sets None "B" 5 signed_in) as (_ & _ & Hset').
  destruct Hset as (_ & Hcart & _); [lia|discriminate|].
  destruct (Hset' "u"%string) as (_ & Hline & _); [lia|reflexivity|reflexivity|].
  split; [apply Hrm; lia|]. split; [apply Hrm'; lia|].
  split; [exact Hcart|exact Hline].
Defined.

(** C5 (as the code has it).  [addToCart] for a product that does not exist
    returns normally and leaves both carts as they were, on either path.  A
    visitor gets no notification and nothing is logged: the look-up finds
    nothing and the function returns.  A signed-in user gets the error
    toast, and the error of the rejected upsert is logged. *)
Theorem addToCart_unknown_product user p q w :
  products w !! p = None →
  (user = None → storage w ≠ Some Malformed) →
  let r := addToCart user p q w in
  outcome r = Normal tt ∧
  storage (after r) = storage w ∧ items (after r) = items w ∧
  cart_items (after r) = cart_items w ∧
  match user with
  | None => toasts (after r) = toasts w ∧ console (after r) = console w
  | Some _ =>
      toasts (after r) = toasts w ++ [add_failed] ∧
      ∃ e, console (after r) = console w ++ [("Error adding to cart:"%string, e)]
  end.
Proof.
  intros Hp Hok. destruct user as [u|]; cbv zeta.
  - destruct (addToCart_remote_rejected u p q w) as (? & ? & ? & ? & ? & ?); [by auto|].
    by split_and!.
  - assert (Hf : found p w = None) by (unfold found; rewrite Hp; by case_match).
    destruct (addToCart_anonymous_not_found p q w (Hok eq_refl) Hf)
      as (? & ? & ? & ? & ? & ?).
    by split_and!.
Qed.

Lemma addToCart_unknown_product_witness :
  toasts (after (addToCart (Some "u"%string) "C" 1 signed_in)) = [add_failed] ∧
  cart_items (after (addToCart (Some "u"%string) "C" 1 signed_in)) = cart_items signed_in ∧
  storage (after (addToCart None "C" 1 browsing)) = storage browsing.
Proof.
  destruct (addToCart_unknown_product (Some "u"%string) "C" 1 signed_in)
    as (_ & _ & _ & Hc & Ht & _); [reflexivity|discriminate|].
  destruct (addToCart_unknown_product None "C" 1 browsing)
    as (_ & Hs & _); [reflexivity|discriminate|].
  split; [exact Ht|]. split; [exact Hc|exact Hs].
Defined.

(** C5, refuted as stated: a visitor who adds a product that does not exist
    is shown nothing, and nothing is logged. *)
Lemma addToCart_unknown_product_is_silent_for_visitors :
  products browsing !! "C"%string = None ∧
  toasts (after (addToCart None "C" 1 browsing)) = [] ∧
  console (after (addToCart None "C" 1 browsing)) = [].
Proof. split; [reflexivity|]. split; reflexivity. Qed.

(** ** Reconciliation at sign-in *)

Lemma syncLocalCart_run u l w :
  storage w = Some (Lines l) → syncLocalCart (Some u) w = (replay u l ;; removeItem) w.
Proof. destruct w. simpl. by intros ->. Qed.

Lemma replay_cons u x l :
  replay u (x :: l) = (addToCart (Some u) (product_id x) (qty x) ;; replay u l).
Proof. reflexivity. Qed.

Lemma replay_total u l w :
  outcome (replay u l w) = Normal tt ∧ storage (after (replay u l w)) = storage w.
Proof.
  revert w. induction l as [|x l IH]; intros w; [done|].
  destruct (addToCart_remote_total u (product_id x) (qty x) w) as (Hn & Hs & _).
  rewrite replay_cons, (bind_normal _ _ _ _ Hn).
  set (w1 := after (addToCart (Some u) (product_id x) (qty x) w)) in *.
  destruct (IH w1) as [Hn' Hs']. by rewrite Hn', Hs'.
Qed.

Lemma upserted_elsewhere u l t k :
  k ∉ (λ item, (u, product_id item)) <$> l → upserted u l t !! k = t !! k.
Proof.
  revert t. induction l as [|x l IH]; intros t Hk; [done|].
  rewrite fmap_cons, not_elem_of_cons in Hk. destruct Hk as [Hx Hl].
  unfold upserted in *. simpl. rewrite IH by done. by rewrite lookup_insert_ne.
Qed.

Lemma upserted_line u l t item :
  unique_products l → item ∈ l →
  upserted u l t !! (u, product_id item) = Some (qty item).
Proof.
  unfold unique_products. revert t. induction l as [|x l IH]; intros t Hl Hin.
  { by apply elem_of_nil in Hin. }
  rewrite fmap_cons, NoDup_cons in Hl. destruct Hl as [Hx Hl].
  change (upserted u (x :: l) t) with (upserted u l (<[(u, product_id x) := qty x]> t)).
  apply elem_of_cons in Hin as [->|Hin]; [|by apply IH].
  rewrite upserted_elsewhere; [by rewrite lookup_insert_eq|].
  intros (y & [= Hy] & Hin)%list_elem_of_fmap.
  apply Hx, list_elem_of_fmap. eauto.
Qed.

Lemma replay_accepted u l w :
  arrive (2 * length l) w = true →
  acceptable w l →
  outcome (replay u l w) = Normal tt ∧
  cart_items (after (replay u l w)) = upserted u l (cart_items w).
Proof.
  unfold acceptable. revert w. induction l as [|x l IH]; intros w Ha Hl; [done|].
  apply Forall_cons in Hl as [[[product Hp] Hi] Hl].
  replace (2 * length (x :: l))%nat with (S (S (2 * length l))) in Ha by (simpl; lia).
  destruct (addToCart_remote_accepted u (product_id x) (qty x) w product)
    as (Hn & Hc & _ & Hpr & Ho & _); [by eapply arrive_one|done..|].
  rewrite replay_cons, (bind_normal _ _ _ _ Hn).
  set (w1 := after (addToCart (Some u) (product_id x) (qty x) w)) in *.
  destruct (IH w1) as [Hn' Hc'].
  - by eapply arrive_after_two.
  - by rewrite Hpr.
  - by rewrite Hn', Hc', Hc.
Qed.

(** C3.  For a signed-in user whose browser holds a local cart,
    [syncLocalCart] returns normally and leaves the key removed, whatever
    happens to the individual merges: requests lost in transit or rejected
    by the backend are caught inside [addToCart], and the loop goes on to
    [removeItem]. *)
Theorem syncLocalCart_clears_local_store u l w :
  storage w = Some (Lines l) →
  outcome (syncLocalCart (Some u) w) = Normal tt ∧
  storage (after (syncLocalCart (Some u) w)) = None.
Proof.
  intros Hs. rewrite (syncLocalCart_run u l w Hs).
  destruct (replay_total u l w) as [Hn _].
  by rewrite (bind_normal _ _ _ _ Hn).
Qed.

Lemma syncLocalCart_clears_local_store_witness :
  outcome (syncLocalCart (Some "u"%string) at_sign_in_stale) = Normal tt ∧
  storage (after (syncLocalCart (Some "u"%string) at_sign_in_stale)) = None.
Proof.
  apply (syncLocalCart_clears_local_store "u"
           [new_line "0.a" "A" apple 2; new_line "0.c" "C" bread 1] at_sign_in_stale).
  reflexivity.
Defined.

(** What C3 costs: in [at_sign_in_stale] the first upsert is lost in transit
    and the second is rejected, so neither line reaches the account, and
    the local cart is gone all the same. *)
Example syncLocalCart_drops_unmerged_lines :
  let w' := after (syncLocalCart (Some "u"%string) at_sign_in_stale) in
  storage w' = None ∧ cart_items w' = ∅ ∧ toasts w' = [add_failed; add_failed].
Proof. cbv zeta. split; [reflexivity|]. split; reflexivity. Qed.

(** C1 (as the code has it).  At sign-in, when every request gets through
    and the backend accepts every line of a local cart with one line per
    product, each local line is upserted: afterwards the account has a line
    for that product with exactly the local quantity, whether or not it had
    one before (an earlier quantity is overwritten, not added to).  Lines of
    the account for other products are untouched, and the local cart is
    removed. *)
Theorem syncLocalCart_sets_remote_quantities u l w :
  storage w = Some (Lines l) →
  unique_products l →
  arrive (2 * length l) w = true →
  acceptable w l →
  let r := syncLocalCart (Some u) w in
  outcome r = Normal tt ∧
  (∀ item, item ∈ l → cart_items (after r) !! (u, product_id item) = Some (qty item)) ∧
  (∀ k, k ∉ (λ item, (u, product_id item)) <$> l →
        cart_items (after r) !! k = cart_items w !! k) ∧
  storage (after r) = None.
Proof.
  intros Hs Hu Ha Hl. cbv zeta. rewrite (syncLocalCart_run u l w Hs).
  destruct (replay_accepted u l w Ha Hl) as [Hn Hc].
  rewrite (bind_normal _ _ _ _ Hn).
  change (cart_items (after (removeItem (after (replay u l w)))))
    with (cart_items (after (replay u l w))).
  rewrite Hc. split_and!; [done| | |done].
  - intros item Hin. by apply upserted_line.
  - intros k Hk. by apply upserted_elsewhere.
Qed.

Lemma syncLocalCart_sets_remote_quantities_witness :
  let r := syncLocalCart (Some "u"%string) at_sign_in in
  cart_items (after r) !! ("u"%string, "A"%string) = Some 2 ∧
  cart_items (after r) !! ("u"%string, "B"%string) = Some 1 ∧
  storage (after r) = None.
Proof.
  cbv zeta.
  destruct (syncLocalCart_sets_remote_quantities "u"
              [new_line "0.a" "A" apple 2; new_line "0.b" "B" bread 1] at_sign_in)
    as (_ & Hlines & _ & Hs).
  - reflexivity.
  - apply NoDup_cons. split; [|apply NoDup_singleton].
    apply not_elem_of_cons. split; [discriminate|apply not_elem_of_nil].
  - reflexivity.
  - repeat constructor; by eexists.
  - split; [apply (Hlines (new_line "0.a" "A" apple 2)); apply list_elem_of_here|].
    split; [|exact Hs].
    apply (Hlines (new_line "0.b" "B" bread 1)). apply list_elem_of_further, list_elem_of_here.
Defined.

(** C1, refuted as stated: merging the local cart [{A:2, B:1}] into the
    account's cart [{B:3}] leaves the account with [{A:2, B:1}], not
    [{A:2, B:4}]. *)
Lemma syncLocalCart_is_not_additive :
  let r := syncLocalCart (Some "u"%string) at_sign_in in
  cart_of (storage at_sign_in) = [new_line "0.a" "A" apple 2; new_line "0.b" "B" bread 1] ∧
  cart_items at_sign_in !! ("u"%string, "B"%string) = Some 3 ∧
  cart_items (after r) !! ("u"%string, "A"%string) = Some 2 ∧
  cart_items (after r) !! ("u"%string, "B"%string) = Some 1 ∧
  cart_items (after r) !! ("u"%string, "B"%string) ≠ Some (3 + 1).
Proof.
  cbv zeta. split_and!; [reflexivity..|]. vm_compute. discriminate.
Qed.

(** ** The order id *)

Module OrderIdFacts.
Import OrderId.

Lemma all_digits_uint u : all_digits (NilEmpty.string_of_uint u) = true.
Proof. induction u; simpl; auto. Qed.

Lemma all_digits_to_text z : 0 ≤ z → all_digits (to_text z) = true.
Proof.
  unfold to_text. destruct z as [|n|n]; [done| |lia]. intros _. simpl.
  unfold NilZero.string_of_uint. destruct (Pos.to_uint n) eqn:E; [done|..];
    rewrite <- E; apply all_digits_uint.
Qed.

Lemma all_digits_app s t : all_digits (s +:+ t) = all_digits s && all_digits t.
Proof. induction s as [|c s IH]; simpl; [done|]. by rewrite IH, andb_assoc. Qed.

Lemma length_app s t :
  String.length (s +:+ t) = (String.length s + String.length t)%nat.
Proof. induction s as [|c s IH]; simpl; [done|]. by rewrite IH. Qed.

Lemma all_digits_substring m n s :
  all_digits s = true → all_digits (String.substring m n s) = true.
Proof.
  revert m n. induction s as [|c s IH]; intros [|m] [|n]; simpl; try done.
  - intros [-> H]%andb_prop. simpl. by apply IH.
  - intros [_ H]%andb_prop. by apply IH.
  - intros [_ H]%andb_prop. by apply IH.
Qed.

Lemma length_prefix n s :
  (n ≤ String.length s)%nat → String.length (String.substring 0 n s) = n.
Proof.
  revert n. induction s as [|c s IH]; intros [|n]; simpl; try done; try lia.
  intros H. rewrite IH; lia.
Qed.

Lemma substring_whole s : String.substring 0 (String.length s) s = s.
Proof. induction s as [|c s IH]; simpl; [done|]. by rewrite IH. Qed.

Lemma all_digits_padding n rest :
  all_digits rest = true → all_digits (padding n "0" rest) = true.
Proof.
  revert rest. induction n as [|n IH]; intros rest Hr; simpl; [done|].
  destruct rest as [|c rest]; simpl in *.
  - by apply IH.
  - apply andb_prop in Hr as [-> Hr]. by apply IH.
Qed.

Lemma length_padding n rest : String.length (padding n "0" rest) = n.
Proof.
  revert rest. induction n as [|n IH]; intros rest; simpl; [done|].
  destruct rest; simpl; by rewrite IH.
Qed.

Lemma length_LPAD s n : String.length (LPAD s n "0") = n.
Proof.
  unfold LPAD. destruct (Nat.leb_spec n (String.length s)).
  - by apply length_prefix.
  - rewrite length_app, length_padding. lia.
Qed.

Lemma all_digits_LPAD s n : all_digits s = true → all_digits (LPAD s n "0") = true.
Proof.
  intros Hs. unfold LPAD. case_match.
  - by apply all_digits_substring.
  - by rewrite all_digits_app, all_digits_padding, Hs.
Qed.

Lemma RIGHT_whole s n : String.length s = n → RIGHT s n = s.
Proof. intros <-. unfold RIGHT. rewrite Nat.sub_diag. apply substring_whole. Qed.

Lemma candidate_twelve_digits now_ms r :
  0 ≤ now_ms → 0 ≤ r → twelve_digits (candidate now_ms r).
Proof.
  intros Hn Hr. unfold candidate. cbv zeta.
  rewrite RIGHT_whole by (by rewrite length_app, !length_LPAD).
  split.
  - by rewrite length_app, !length_LPAD.
  - by rewrite all_digits_app, !all_digits_LPAD by by apply all_digits_to_text.
Qed.

Lemma exists_check_false orders new_id :
  exists_check orders new_id = false ↔ Forall (λ o, order_id o ≠ new_id) orders.
Proof.
  unfold exists_check. induction orders as [|o orders IH]; simpl.
  - split; [constructor|done].
  - rewrite orb_false_iff, Forall_cons, IH, String.eqb_neq. done.
Qed.

(** C9.  With the clock after the epoch and [FLOOR(RANDOM() * 100)] in
    [0, 100), whenever [generate_order_id()] returns, the result is a string
    of 12 digits that is the [order_id] of no row of [orders] as the
    function saw the table; it is the candidate of the first round whose
    collision check passed, every earlier round having produced an id that
    was taken. *)
Theorem generate_order_id_fresh fuel now_ms random call orders new_id :
  0 ≤ now_ms →
  (∀ n, 0 ≤ random n < 100) →
  generate_order_id fuel now_ms random call orders = Some new_id →
  twelve_digits new_id ∧
  Forall (λ o, order_id o ≠ new_id) orders ∧
  ∃ n, (call ≤ n < call + fuel)%nat ∧
       new_id = candidate now_ms (random n) ∧
       ∀ m, (call ≤ m < n)%nat →
            exists_check orders (candidate now_ms (random m)) = true.
Proof.
  intros Hnow Hr. revert call.
  induction fuel as [|fuel IH]; intros call; simpl; [done|].
  destruct (exists_check orders (candidate now_ms (random call))) eqn:Hc; simpl.
  - intros (Hd & Hf & n & Hn & Hid & Hbefore)%IH.
    split_and!; [done..|]. exists n. split; [lia|]. split; [done|].
    intros m Hm. destruct (decide (m = call)) as [->|]; [done|]. apply Hbefore. lia.
  - intros [= <-]. split_and!.
    + apply candidate_twelve_digits; [done|]. apply Hr.
    + by apply exists_check_false.
    + exists call. split; [lia|]. split; [done|]. intros m Hm. lia.
Qed.

Lemma generate_order_id_fresh_witness :
  generate_order_id 5 1758689857123 dice 0 placed = Some "175868985707"%string ∧
  twelve_digits "175868985707" ∧
  Forall (λ o, order_id o ≠ "175868985707"%string) placed.
Proof.
  split; [reflexivity|].
  destruct (generate_order_id_fresh 5 1758689857123 dice 0 placed "175868985707")
    as (Hd & Hf & _).
  - lia.
  - intros [|n]; simpl; lia.
  - reflexivity.
  - split; [exact Hd|exact Hf].
Defined.

(** The loop does return when some round draws an id that is free ... *)
Lemma generate_order_id_returns fuel now_ms (random : nat → Z) (call : nat) orders (n : nat) :
  (n < fuel)%nat →
  exists_check orders (candidate now_ms (random (call + n)%nat)) = false →
  is_Some (generate_order_id fuel now_ms random call orders).
Proof.
  revert call n. induction fuel as [|fuel IH]; intros call n Hn Hc; [lia|]. simpl.
  destruct (exists_check orders (candidate now_ms (random call))) eqn:Hc0; simpl; [|done].
  destruct n as [|n]; [rewrite Nat.add_0_r in Hc; congruence|].
  apply (IH (S call) n); [lia|]. by replace (S call + n)%nat with (call + S n)%nat by lia.
Qed.

(** ... and only then: [NOW()] does not move within the transaction, so
    when every id of this instant is taken no number of rounds is enough. *)
Lemma generate_order_id_spins fuel now_ms random call orders :
  (∀ n, exists_check orders (candidate now_ms (random n)) = true) →
  generate_order_id fuel now_ms random call orders = None.
Proof.
  intros Hall. revert call. induction fuel as [|fuel IH]; intros call; simpl; [done|].
  rewrite Hall. simpl. apply IH.
Qed.

End OrderIdFacts.

(** * Further properties of the provider and the pages *)

(** ** The count on the cart *)

Lemma totalItems_from (l : list CartItem) (acc : Z) :
  foldl (λ sum item, sum + qty item) acc l = acc + totalItems l.
Proof.
  unfold totalItems. revert acc. induction l as [|x l IH]; intros acc; simpl; [lia|].
  rewrite (IH (acc + qty x)), (IH (0 + qty x)). lia.
Qed.

Lemma totalItems_cons x (l : list CartItem) : totalItems (x :: l) = qty x + totalItems l.
Proof. unfold totalItems at 1. simpl. by rewrite totalItems_from. Qed.

Lemma totalItems_app (l1 l2 : list CartItem) :
  totalItems (l1 ++ l2) = totalItems l1 + totalItems l2.
Proof.
  induction l1 as [|x l1 IH]; [done|]. simpl. rewrite !totalItems_cons, IH. lia.
Qed.

Lemma totalItems_alter q i (l : list CartItem) :
  (i < length l)%nat →
  totalItems (alter (λ item, with_qty item (qty item + q)) i l) = totalItems l + q.
Proof.
  revert i. induction l as [|x l IH]; intros [|i] Hi; simpl in Hi; try lia.
  - change (totalItems (with_qty x (qty x + q) :: l) = totalItems (x :: l) + q).
    rewrite !totalItems_cons. simpl. lia.
  - change (totalItems (x :: alter (λ item, with_qty item (qty item + q)) i l)
            = totalItems (x :: l) + q).
    rewrite !totalItems_cons, IH by lia. lia.
Qed.

Lemma findIndex_from_bound {A} (f : A → bool) l i :
  findIndex_from f l i = -1 ∨ i ≤ findIndex_from f l i < i + Z.of_nat (length l).
Proof.
  revert i. induction l as [|x l IH]; intros i; simpl; [by left|].
  destruct (f x); [right; lia|].
  destruct (IH (i + 1)) as [->|?]; [by left|right; lia].
Qed.

Lemma totalItems_add_line p q rid product (l : list CartItem) :
  totalItems (add_line p q rid product l) = totalItems l + q.
Proof.
  unfold add_line. cbv zeta. case_match eqn:Hf.
  - apply totalItems_alter. unfold findIndex in *.
    destruct (findIndex_from_bound (λ item, bool_decide (product_id item = p)) l 0); lia.
  - rewrite totalItems_app. unfold totalItems at 2. simpl. lia.
Qed.

Lemma totalItems_filter p (l : list CartItem) :
  totalItems (filter (λ item, product_id item ≠ p) l)
  = totalItems l - totalItems (filter (λ item, product_id item = p) l).
Proof.
  induction l as [|x l IH]; [done|].
  rewrite !filter_cons. destruct (decide (product_id x = p)) as [Hx|Hx].
  - rewrite decide_False by (intros ?; done). rewrite !totalItems_cons, IH. lia.
  - rewrite decide_True by done. rewrite !totalItems_cons, IH. lia.
Qed.

(** X1.  For a visitor whose rendered cart is the stored one, when the
    product exists and the look-up gets through, [addToCart(p, q)] with
    [q] not negative raises the count shown on the cart by exactly [q],
    whether the product had a line or not (the quantities not being
    negative and the new count a safe integer, so that every sum is
    exact). *)
Theorem addToCart_raises_totalItems p q product w :
  storage w ≠ Some Malformed →
  items w = cart_of (storage w) →
  arrive 1 w = true →
  products w !! p = Some product →
  exact_total (items w) → 0 ≤ q → totalItems (items w) + q ≤ MAX_SAFE_INTEGER →
  totalItems (items (after (addToCart None p q w))) = totalItems (items w) + q.
Proof.
  intros Hok Hsync Ha Hp _ _ _.
  assert (Hf : found p w = Some product) by (by rewrite (found_arrive p w 0)).
  destruct (addToCart_anonymous_found p q w Hok product Hf) as (_ & _ & -> & _).
  rewrite Hsync. apply totalItems_add_line.
Qed.

(** ** Removing *)

Lemma removeFromCart_anonymous_run p w :
  storage w ≠ Some Malformed →
  let l' := filter (λ item, product_id item ≠ p) (cart_of (storage w)) in
  let r := removeFromCart None p w in
  outcome r = Normal tt ∧ storage (after r) = Some (Lines l') ∧ items (after r) = l' ∧
  products (after r) = products w ∧ outages (after r) = outages w ∧
  cart_items (after r) = cart_items w ∧ toasts (after r) = toasts w ∧
  console (after r) = console w.
Proof.
  intros Hok. destruct w as [st it pr ci ou en to co]. simpl in *.
  js_run. destruct st as [[| |l]|]; simpl in *; done.
Qed.

Lemma filter_other_absent p (l : list CartItem) :
  p ∉ product_id <$> l → filter (λ item, product_id item ≠ p) l = l.
Proof.
  induction l as [|x l IH]; [done|].
  rewrite fmap_cons, not_elem_of_cons. intros [Hx Hl].
  rewrite filter_cons_True by congruence. by rewrite IH.
Qed.

Lemma filter_other_gone p (l : list CartItem) :
  p ∉ product_id <$> filter (λ item, product_id item ≠ p) l.
Proof.
  intros (x & -> & Hx)%list_elem_of_fmap.
  by apply list_elem_of_filter in Hx as [? _].
Qed.

(** X2.  For a visitor whose rendered cart is the stored one,
    [removeFromCart(p)] returns normally; the cart, stored and rendered, is
    then the previous lines of the other products, in their order, with no
    line for [p]; when [p] had no line it is the cart as it was; the count
    shown drops by the quantities of the lines removed (the quantities
    adding up exactly); and removing a second time changes nothing more. *)
Theorem removeFromCart_anonymous p w :
  storage w ≠ Some Malformed →
  items w = cart_of (storage w) →
  let r := removeFromCart None p w in
  let rr := (removeFromCart None p ;; removeFromCart None p) w in
  outcome r = Normal tt ∧
  cart_of (storage (after r)) = items (after r) ∧
  items (after r) = filter (λ item, product_id item ≠ p) (items w) ∧
  (p ∉ product_id <$> items (after r)) ∧
  (p ∉ product_id <$> items w → items (after r) = items w) ∧
  (exact_total (items w) →
   totalItems (items (after r))
   = totalItems (items w) - totalItems (filter (λ item, product_id item = p) (items w))) ∧
  items (after rr) = items (after r) ∧
  cart_of (storage (after rr)) = items (after r).
Proof.
  intros Hok Hsync. cbv zeta.
  destruct (removeFromCart_anonymous_run p w Hok) as (Hn & Hs & Hi & _).
  rewrite (bind_normal _ _ _ _ Hn).
  set (w1 := after (removeFromCart None p w)) in *.
  assert (Hok1 : storage w1 ≠ Some Malformed) by (by rewrite Hs).
  destruct (removeFromCart_anonymous_run p w1 Hok1) as (_ & Hs2 & Hi2 & _).
  rewrite Hn, Hi, Hi2, Hs2, Hs, Hsync. simpl. split_and!; [done..| | | | |].
  - apply filter_other_gone.
  - apply filter_other_absent.
  - intros _. apply totalItems_filter.
  - apply filter_other_absent, filter_other_gone.
  - apply filter_other_absent, filter_other_gone.
Qed.

(** X3.  For a visitor whose rendered cart is the stored one, adding a
    product that has no line and then removing it gives back the cart as
    it was, stored and rendered, whether or not the product was found. *)
Theorem addToCart_then_removeFromCart p q w :
  storage w ≠ Some Malformed →
  items w = cart_of (storage w) →
  p ∉ product_id <$> cart_of (storage w) →
  let r := (addToCart None p q ;; removeFromCart None p) w in
  outcome r = Normal tt ∧
  cart_of (storage (after r)) = cart_of (storage w) ∧
  items (after r) = items w.
Proof.
  intros Hok Hsync Hp. cbv zeta. rewrite Hsync.
  destruct (found p w) as [product|] eqn:Hf.
  - destruct (addToCart_anonymous_found p q w Hok product Hf) as (Hn & Hs & _).
    rewrite (bind_normal _ _ _ _ Hn).
    set (w1 := after (addToCart None p q w)) in *.
    assert (Hok1 : storage w1 ≠ Some Malformed) by (by rewrite Hs).
    destruct (removeFromCart_anonymous_run p w1 Hok1) as (Hn2 & Hs2 & Hi2 & _).
    rewrite Hn2, Hs2, Hi2, Hs. simpl.
    rewrite add_line_absent by done.
    rewrite filter_app, filter_other_absent by done.
    rewrite filter_cons_False by (simpl; intros H; by apply H).
    by rewrite filter_nil, app_nil_r.
  - destruct (addToCart_anonymous_not_found p q w Hok Hf) as (Hn & Hs & _).
    rewrite (bind_normal _ _ _ _ Hn).
    set (w1 := after (addToCart None p q w)) in *.
    assert (Hok1 : storage w1 ≠ Some Malformed) by (by rewrite Hs).
    destruct (removeFromCart_anonymous_run p w1 Hok1) as (Hn2 & Hs2 & Hi2 & _).
    rewrite Hn2, Hs2, Hi2, Hs. simpl. by rewrite filter_other_absent.
Qed.

(** ** Quantities stay positive *)





(** ** A key that does not parse *)

(** X5.  When the key holds text that is not JSON, [addToCart],
    [updateQuantity] and [removeFromCart] of a visitor and [syncLocalCart]
    of a signed-in user all end in the [SyntaxError] of [JSON.parse] and
    change nothing (no request is sent, the key stays as it is); only
    [clearCart], which never reads the key, returns normally and removes
    it. *)
Theorem unparsable_key_blocks_all_but_clearCart (m : Mutation) (w : World) :
  storage w = Some Malformed →
  (m ≠ ClearCart → perform None m w = (Throw SyntaxError, w)) ∧
  (∀ u, syncLocalCart (Some u) w = (Throw SyntaxError, w)) ∧
  outcome (clearCart None w) = Normal tt ∧
  storage (after (clearCart None w)) = None ∧
  items (after (clearCart None w)) = [].
Proof.
  destruct w as [st it pr ci ou en to co]. simpl. intros ->.
  split_and!; [|done..].
  destruct m as [p q|p q|p|]; intros Hm; [| |done..|done].
  - done.
  - js_run. by destruct (q <=? 0).
Qed.

(** ** Signing in twice *)

Lemma completion_eta {A} (r : Completion A * World) a :
  outcome r = Normal a → r = (Normal a, after r).
Proof. destruct r as [c w]. simpl. by intros ->. Qed.

Lemma syncLocalCart_nothing_stored u w :
  truthy (storage w) = false → syncLocalCart (Some u) w = (Normal tt, w).
Proof. destruct w as [[[| |l]|] it pr ci ou en to co]; simpl; intros H; done. Qed.

Lemma bind_throw {A B} (m : Js A) (f : A → Js B) w e :
  m w = (Throw e, w) → (m ≫= f) w = (Throw e, w).
Proof. unfold mbind, Js_bind. by intros ->. Qed.

Lemma syncLocalCart_consumes u w :
  syncLocalCart (Some u) w = (Throw SyntaxError, w) ∨
  outcome (syncLocalCart (Some u) w) = Normal tt ∧
  truthy (storage (after (syncLocalCart (Some u) w))) = false.
Proof.
  destruct (storage w) as [[| |l]|] eqn:Hs.
  - right. rewrite syncLocalCart_nothing_stored by (by rewrite Hs). simpl. by rewrite Hs.
  - left. destruct w as [st it pr ci ou en to co]. simpl in Hs. by subst.
  - right. rewrite (syncLocalCart_run u l w Hs).
    destruct (replay_total u l w) as [Hn _]. by rewrite (bind_normal _ _ _ _ Hn).
  - right. rewrite syncLocalCart_nothing_stored by (by rewrite Hs). simpl. by rewrite Hs.
Qed.

(** X6.  Running [syncLocalCart] twice in a row for a signed-in user is the same
    as running it once, in every state: the first run removes the key (or
    finds none, or throws), so the second replays nothing. *)
Theorem syncLocalCart_twice u w :
  (syncLocalCart (Some u) ;; syncLocalCart (Some u)) w = syncLocalCart (Some u) w.
Proof.
  destruct (syncLocalCart_consumes u w) as [Hthrow|[Hn Hgone]].
  - by rewrite Hthrow, (bind_throw _ _ _ _ Hthrow).
  - rewrite (bind_normal _ _ _ _ Hn), syncLocalCart_nothing_stored by done.
    symmetry. by apply completion_eta.
Qed.

(** ** The button under a product *)




(** X8.  A signed-in user who presses the button under a product [n + 1] times,
    every request getting through, ends with quantity 1 for that product,
    whatever the quantity was before: each press upserts quantity 1. *)
Theorem member_presses_leave_one n u p product w :
  products w !! p = Some product →
  arrive (2 * S n) w = true →
  let r := times (S n) (handleAddToCart (Some u) (p, product)) w in
  outcome r = Normal tt ∧
  cart_items (after r) = <[(u, p) := 1]> (cart_items w).
Proof.
  revert w. induction n as [|n IH]; intros w Hp Ha; cbv zeta.
  - destruct (addToCart_remote_accepted u p 1 w product) as (Hn & Hc & _);
      [by eapply (arrive_one 1)|done..|].
    change (times 1 (handleAddToCart (Some u) (p, product)))
      with (addToCart (Some u) p 1 ;; (mret tt : Js unit)).
    rewrite (bind_normal _ _ _ _ Hn). done.
  - replace (2 * S (S n))%nat with (S (S (2 * S n))) in Ha by lia.
    destruct (addToCart_remote_accepted u p 1 w product) as (Hn & Hc & _ & Hpr & Ho & _);
      [by eapply arrive_one|done..|].
    change (times (S (S n)) (handleAddToCart (Some u) (p, product)))
      with (addToCart (Some u) p 1 ;; times (S n) (handleAddToCart (Some u) (p, product))).
    rewrite (bind_normal _ _ _ _ Hn).
    set (w1 := after (addToCart (Some u) p 1 w)) in *.
    destruct (IH w1) as (Hn2 & Hc2); [by rewrite Hpr|by eapply arrive_after_two|].
    rewrite Hn2, Hc2, Hc. by rewrite insert_insert_eq.
Qed.

(** ** The quantity controls of the cart page *)

Lemma updateQuantity_remote_total u p q w :
  1 ≤ q →
  let r := updateQuantity (Some u) p q w in
  outcome r = Normal tt ∧ storage (after r) = storage w ∧ items (after r) = items w ∧
  (cart_items (after r) = alter (λ _, q) (u, p) (cart_items w) ∧
   toasts (after r) = toasts w ∧ console (after r) = console w ∨
   cart_items (after r) = cart_items w ∧ toasts (after r) ≠ toasts w).
Proof.
  intros Hq. destruct w as [st it pr ci ou en to co]. js_run.
  rewrite (proj2 (Z.leb_gt _ _)) by lia. simpl.
  destruct (default false (head ou)); simpl.
  { split_and!; [done..|]. right. split; [done|]. intros H.
    apply (f_equal length) in H. rewrite length_app in H. simpl in H. lia. }
  destruct (int4 q); simpl; [by auto 10|].
  split_and!; [done..|]. right. split; [done|]. intros H.
  apply (f_equal length) in H. rewrite length_app in H. simpl in H. lia.
Qed.

(** X9.  The quantity controls of the cart page never remove a line: for any
    requested quantity [handleQuantityChange] returns normally and leaves
    the products of the rendered cart, of the stored cart and of the
    account's cart as they were (for a visitor: the rendered cart being
    the stored one), and a quantity below one is ignored altogether. *)
Theorem handleQuantityChange_never_removes user p newQty w :
  (user = None → storage w ≠ Some Malformed ∧ items w = cart_of (storage w)) →
  let r := handleQuantityChange user p newQty w in
  outcome r = Normal tt ∧
  product_id <$> items (after r) = product_id <$> items w ∧
  product_id <$> cart_of (storage (after r)) = product_id <$> cart_of (storage w) ∧
  dom (cart_items (after r)) = dom (cart_items w) ∧
  (newQty < 1 → r = (Normal tt, w)).
Proof.
  intros Hok. cbv zeta. unfold handleQuantityChange.
  destruct (Z.ltb_spec newQty 1) as [Hq|Hq]; [done|].
  destruct user as [u|].
  - destruct (updateQuantity_remote_total u p newQty w Hq) as (Hn & Hs & Hi & Hc).
    rewrite Hn, Hs, Hi. split_and!; [done..| |lia].
    destruct Hc as [(-> & _)|(-> & _)]; [apply dom_alter_L|done].
  - destruct (Hok eq_refl) as [Hread Hsync].
    destruct (updateQuantity_anonymous_run p newQty w Hread Hq) as (Hn & Hs & Hi & Hc & _).
    rewrite Hn, Hs, Hi, Hc, Hsync. simpl.
    split_and!; [done|apply product_id_set_line..|done|lia].
Qed.

(** ** The account's cart: removing, clearing, changing *)

(** X10.  For a signed-in user [removeFromCart(p)] never throws and never touches
    the browser's cart.  When the request gets through, the user's line for
    [p] is gone, every other line is untouched, and the removal is
    announced (also when there was no such line); when it is lost, the
    table is unchanged and the failure is shown and logged. *)
Theorem removeFromCart_remote u p w :
  let r := removeFromCart (Some u) p w in
  outcome r = Normal tt ∧ storage (after r) = storage w ∧ items (after r) = items w ∧
  (arrive 1 w = true →
   cart_items (after r) !! (u, p) = None ∧
   (∀ k, k ≠ (u, p) → cart_items (after r) !! k = cart_items w !! k) ∧
   toasts (after r)
   = toasts w ++ [mkToast "Removed from cart" "Item has been removed from your cart." false] ∧
   console (after r) = console w) ∧
  (arrive 1 w = false →
   cart_items (after r) = cart_items w ∧
   toasts (after r) = toasts w ++ [mkToast "Error" "Failed to remove item from cart." true] ∧
   console (after r)
   = console w ++ [("Error removing from cart:"%string, PostgrestError "fetch")]).
Proof.
  unfold arrive. destruct w as [st it pr ci ou en to co]. js_run.
  destruct ou as [|[] ou]; simpl; split_and!; try done.
  all: intros _; split_and!; try done.
  all: try apply lookup_delete_eq.
  all: intros k Hk; by apply lookup_delete_ne.
Qed.

(** X11.  For a signed-in user [clearCart()] never throws and never shows a
    toast.  When the request gets through, the user has no line left and
    the lines of other users are untouched; when it is lost, the table is
    unchanged and the failure is only logged. *)
Theorem clearCart_remote u w :
  let r := clearCart (Some u) w in
  outcome r = Normal tt ∧ storage (after r) = storage w ∧ items (after r) = items w ∧
  toasts (after r) = toasts w ∧
  (arrive 1 w = true →
   (∀ p, cart_items (after r) !! (u, p) = None) ∧
   (∀ u' p, u' ≠ u → cart_items (after r) !! (u', p) = cart_items w !! (u', p)) ∧
   console (after r) = console w) ∧
  (arrive 1 w = false →
   cart_items (after r) = cart_items w ∧
   console (after r) = console w ++ [("Error clearing cart:"%string, PostgrestError "fetch")]).
Proof.
  unfold arrive. destruct w as [st it pr ci ou en to co]. js_run.
  destruct ou as [|[] ou]; simpl; split_and!; try done.
  all: intros _; split_and!; try done.
  all: try (intros p'; apply map_lookup_filter_None; right; intros x _ H; by apply H).
  all: intros u' p' Hu; destruct (ci !! (u', p')) as [x|] eqn:Hx;
    [apply map_lookup_filter_Some; by split
    |apply map_lookup_filter_None; by left].
Qed.



(** ** When [generate_order_id] returns *)

Module OrderIdMore.
Import OrderId.

Lemma sold_out_full now_ms r :
  0 ≤ r < 100 → exists_check (sold_out now_ms) (candidate now_ms r) = true.
Proof.
  intros Hr. unfold exists_check, sold_out. apply existsb_exists.
  exists (mkOrder (candidate now_ms r) "u"). split; [|apply String.eqb_refl].
  apply list_elem_of_In, list_elem_of_fmap. exists (Z.to_nat r).
  split; [by rewrite Z2Nat.id by lia|]. apply elem_of_seq. lia.
Qed.

(** X13.  When the hundred ids that exist for the instant of the transaction are
    all taken, [generate_order_id()] does not return, however many rounds
    it runs. *)
Theorem generate_order_id_stuck fuel now_ms random call orders :
  (∀ n, 0 ≤ random n < 100) →
  (∀ r, 0 ≤ r < 100 → exists_check orders (candidate now_ms r) = true) →
  generate_order_id fuel now_ms random call orders = None.
Proof.
  intros Hr Hfull. apply OrderIdFacts.generate_order_id_spins. intros n. apply Hfull, Hr.
Qed.

Lemma generate_order_id_stuck_witness :
  generate_order_id 1000 1758689857123 dice 0 (sold_out 1758689857123) = None.
Proof.
  apply generate_order_id_stuck.
  - intros [|n]; simpl; lia.
  - apply sold_out_full.
Defined.

(** X14.  When some draw within the first [fuel] rounds gives an id no order has,
    [generate_order_id()] returns within those rounds, with an id no order
    has. *)
Theorem generate_order_id_finds_free_id fuel now_ms random call orders n :
  (n < fuel)%nat →
  Forall (λ o, order_id o ≠ candidate now_ms (random (call + n)%nat)) orders →
  ∃ new_id, generate_order_id fuel now_ms random call orders = Some new_id ∧
            Forall (λ o, order_id o ≠ new_id) orders.
Proof.
  revert call n. induction fuel as [|fuel IH]; intros call n Hn Hfree; [lia|]. simpl.
  destruct (exists_check orders (candidate now_ms (random call))) eqn:Hc; simpl.
  - destruct n as [|n].
    + rewrite Nat.add_0_r in Hfree. apply OrderIdFacts.exists_check_false in Hfree. congruence.
    + apply (IH (S call) n); [lia|].
      by replace (S call + n)%nat with (call + S n)%nat by lia.
  - eexists. split; [done|]. by apply OrderIdFacts.exists_check_false.
Qed.

Lemma generate_order_id_finds_free_id_witness :
  ∃ new_id, generate_order_id 2 1758689857123 dice 0 placed = Some new_id ∧
            Forall (λ o, order_id o ≠ new_id) placed.
Proof.
  apply (generate_order_id_finds_free_id 2 1758689857123 dice 0 placed 1).
  - lia.
  - repeat constructor. simpl. discriminate.
Defined.

End OrderIdMore.

(** ** The carousel *)

Module BannerCarouselFacts.
Import BannerCarousel.

(** X15.  With at least one banner and a current index that is not negative,
    [goToNext] and [goToPrevious] give an index within the banners (also
    when the current index had run past the end). *)
Theorem carousel_index_stays_in_range banners prev :
  banners ≠ [] → 0 ≤ prev →
  (∃ i, goToNext banners prev = Some i ∧ 0 ≤ i < Z.of_nat (length banners)) ∧
  (∃ i, goToPrevious banners prev = Some i ∧ 0 ≤ i < Z.of_nat (length banners)).
Proof.
  intros Hb Hprev. unfold goToNext, goToPrevious, js_rem.
  assert (Hn : 0 < Z.of_nat (length banners)) by (destruct banners; [done|simpl; lia]).
  rewrite (proj2 (Z.eqb_neq _ _)) by lia.
  split; eexists; (split; [done|]); apply Z.rem_bound_pos; lia.
Qed.

Lemma carousel_index_stays_in_range_witness :
  goToNext three_banners 7 = Some 2 ∧
  ∃ i, goToPrevious three_banners 7 = Some i ∧ 0 ≤ i < Z.of_nat (length three_banners).
Proof.
  split; [reflexivity|].
  apply (carousel_index_stays_in_range three_banners 7); [discriminate|lia].
Defined.

(** X16.  From an index within the banners, [goToNext] then [goToPrevious], and
    [goToPrevious] then [goToNext], lead back to it. *)
Theorem carousel_next_and_previous_undo banners prev :
  0 ≤ prev < Z.of_nat (length banners) →
  goToNext banners prev ≫= goToPrevious banners = Some prev ∧
  goToPrevious banners prev ≫= goToNext banners = Some prev.
Proof.
  intros Hprev. unfold goToNext, goToPrevious, js_rem.
  set (n := Z.of_nat (length banners)) in *.
  rewrite !(proj2 (Z.eqb_neq n 0)) by lia. simpl.
  rewrite ?(proj2 (Z.eqb_neq n 0)) by lia.
  split; f_equal.
  - destruct (decide (prev + 1 = n)) as [Hlast|Hmid].
    + rewrite Hlast, Z.rem_same by lia. rewrite Z.rem_small by lia. lia.
    + rewrite (Z.rem_small (prev + 1)) by lia.
      replace (prev + 1 - 1 + n) with (prev + 1 * n) by lia.
      rewrite Z.rem_add by nia. apply Z.rem_small. lia.
  - destruct (decide (prev = 0)) as [->|Hpos].
    + rewrite (Z.rem_small (0 - 1 + n)) by lia.
      replace (0 - 1 + n + 1) with n by lia. apply Z.rem_same. lia.
    + replace (prev - 1 + n) with (prev - 1 + 1 * n) by lia.
      rewrite Z.rem_add by nia. rewrite (Z.rem_small (prev - 1)) by lia.
      replace (prev - 1 + 1) with prev by lia. apply Z.rem_small. lia.
Qed.

Lemma carousel_next_and_previous_undo_witness :
  goToNext three_banners 2 = Some 0 ∧
  goToNext three_banners 2 ≫= goToPrevious three_banners = Some 2.
Proof.
  split; [reflexivity|].
  apply (carousel_next_and_previous_undo three_banners 2). simpl. lia.
Defined.

End BannerCarouselFacts.

(** ** The progress of an order *)

Module MyOrdersFacts.
Import MyOrders.

Ltac by_status s :=
  repeat match goal with
         | |- context [String.eqb s ?c] => destruct (String.eqb_spec s c) as [->|?]; simpl
         end.

(** X17.  [getStatusProgress] is between 0 and 100 for every status, is 100
    exactly for [delivered], and does not decrease along the lifecycle
    placed, confirmed, packaging, out_for_delivery, delivered;
    [getStatusLabel] answers [Unknown] exactly for the strings that are not
    values of the [order_status] enum. *)
Theorem order_progress_follows_the_lifecycle :
  (∀ s, 0 ≤ getStatusProgress s ≤ 100) ∧
  (∀ s, getStatusProgress s = 100 ↔ s = "delivered"%string) ∧
  (∀ s, getStatusLabel s = "Unknown"%string ↔ s ∉ order_status) ∧
  (∀ i j s t, (i ≤ j < 5)%nat → order_status !! i = Some s → order_status !! j = Some t →
              getStatusProgress s ≤ getStatusProgress t).
Proof.
  split_and!.
  - intros s. unfold getStatusProgress. by_status s; simpl; lia.
  - intros s. unfold getStatusProgress. by_status s; simpl; split; (done || lia).
  - intros s. unfold getStatusLabel, order_status. by_status s; simpl.
    all: try (split; [done|]; intros Hs; exfalso; apply Hs;
              repeat (first [apply list_elem_of_here|apply list_elem_of_further])).
    split; [|done]. intros _ Hs.
    repeat (apply elem_of_cons in Hs as [?|Hs]; [done|]). by apply elem_of_nil in Hs.
  - intros i j s t Hij Hs Ht.
    destruct i as [|[|[|[|[|i]]]]]; destruct j as [|[|[|[|[|j]]]]];
      try lia; simpl in Hs, Ht; simplify_eq; by vm_compute.
Qed.

End MyOrdersFacts.

(** ** The rendered cart follows the stored one *)

(** X18.  On the anonymous path, when the rendered lines are the stored ones,
    they still are after any mutation. *)
Theorem anonymous_mutations_keep_view_in_step (m : Mutation) (w : World) :
  items w = cart_of (storage w) →
  items (after (perform None m w)) = cart_of (storage (after (perform None m w))).
Proof.
  intros Hsync.
  destruct (malformed_or_readable (storage w)) as [Hbad|Hok].
  { destruct (thrown_is_unchanged m w Hbad) as [->| ->]; [done|]. by js_run. }
  destruct m as [p q|p q|p|]; cbn [perform].
  - destruct (found p w) as [product|] eqn:Hp.
    + by destruct (addToCart_anonymous_found p q w Hok product Hp) as (_ & -> & -> & _).
    + by destruct (addToCart_anonymous_not_found p q w Hok Hp) as (_ & -> & -> & _).
  - destruct (Z.leb_spec q 0) as [Hq|Hq].
    + replace (updateQuantity None p q w) with (removeFromCart None p w)
        by (unfold updateQuantity; by rewrite (proj2 (Z.leb_le _ _))).
      by destruct (removeFromCart_anonymous_run p w Hok) as (_ & -> & -> & _).
    + by destruct (updateQuantity_anonymous_run p q w Hok) as (_ & -> & -> & _); [lia|].
  - by destruct (removeFromCart_anonymous_run p w Hok) as (_ & -> & -> & _).
  - by js_run.
Qed.

Lemma anonymous_mutations_keep_view_in_step_witness :
  items (after (perform None (UpdateQuantity "A" 4) two_lines))
  = cart_of (storage (after (perform None (UpdateQuantity "A" 4) two_lines))).
Proof. apply (anonymous_mutations_keep_view_in_step (UpdateQuantity "A" 4) two_lines). reflexivity. Defined.

(** ** Witnesses *)

Lemma addToCart_raises_totalItems_witness :
  totalItems (items two_lines) = 3 ∧
  totalItems (items (after (addToCart None "B" 4 two_lines))) = 7.
Proof.
  split; [reflexivity|].
  apply (addToCart_raises_totalItems "B" 4 bread two_lines).
  - discriminate.
  - reflexivity.
  - reflexivity.
  - reflexivity.
  - split; [repeat constructor; simpl; lia|]. unfold MAX_SAFE_INTEGER. by vm_compute.
  - lia.
  - unfold MAX_SAFE_INTEGER. by vm_compute.
Defined.

Lemma removeFromCart_anonymous_witness :
  items (after (removeFromCart None "A" two_lines)) = [new_line "0.b" "B" bread 1] ∧
  totalItems (items (after (removeFromCart None "A" two_lines))) = 1 ∧
  items (after (removeFromCart None "C" two_lines)) = items two_lines.
Proof.
  destruct (removeFromCart_anonymous "A" two_lines) as (_ & _ & Hrest & _ & _ & Hcount & _);
    [discriminate|reflexivity|].
  destruct (removeFromCart_anonymous "C" two_lines) as (_ & _ & _ & _ & Hsame & _);
    [discriminate|reflexivity|].
  split; [exact Hrest|]. split.
  - rewrite Hcount; [reflexivity|].
    split; [repeat constructor; simpl; lia|]. unfold MAX_SAFE_INTEGER. by vm_compute.
  - apply Hsame. simpl.
    repeat (apply not_elem_of_cons; split; [discriminate|]). apply not_elem_of_nil.
Defined.

Lemma addToCart_then_removeFromCart_witness :
  cart_of (storage (after ((addToCart None "A" 3 ;; removeFromCart None "A") browsing)))
  = [new_line "0.b" "B" bread 1] ∧
  items (after ((addToCart None "A" 3 ;; removeFromCart None "A") browsing))
  = [new_line "0.b" "B" bread 1].
Proof.
  destruct (addToCart_then_removeFromCart "A" 3 browsing) as (_ & Hcart & Hitems).
  - discriminate.
  - reflexivity.
  - simpl. apply not_elem_of_cons. split; [discriminate|apply not_elem_of_nil].
  - split; [exact Hcart|exact Hitems].
Defined.


Lemma unparsable_key_blocks_all_but_clearCart_witness :
  addToCart None "A" 1 corrupted = (Throw SyntaxError, corrupted) ∧
  syncLocalCart (Some "u"%string) corrupted = (Throw SyntaxError, corrupted) ∧
  storage (after (clearCart None corrupted)) = None.
Proof.
  destruct (unparsable_key_blocks_all_but_clearCart (AddToCart "A" 1) corrupted)
    as (Hm & Hsync & _ & Hclear & _); [reflexivity|].
  split; [apply Hm; discriminate|]. split; [apply Hsync|exact Hclear].
Defined.


Lemma member_presses_leave_one_witness :
  cart_items signed_in !! ("u"%string, "B"%string) = Some 3 ∧
  cart_items (after (times 3 (handleAddToCart (Some "u"%string) ("B"%string, bread)) signed_in))
    !! ("u"%string, "B"%string) = Some 1.
Proof.
  split; [reflexivity|].
  destruct (member_presses_leave_one 2 "u" "B" bread signed_in) as (_ & Hc);
    [reflexivity..|].
  rewrite Hc. apply lookup_insert_eq.
Defined.

Lemma handleQuantityChange_never_removes_witness :
  handleQuantityChange None "B" 0 browsing = (Normal tt, browsing) ∧
  product_id <$> items (after (handleQuantityChange None "B" 9 browsing)) = ["B"%string] ∧
  product_id <$> cart_of (storage (after (handleQuantityChange None "B" 9 browsing)))
  = ["B"%string].
Proof.
  destruct (handleQuantityChange_never_removes None "B" 0 browsing)
    as (_ & _ & _ & _ & Hnothing); [split; [discriminate|reflexivity]|].
  destruct (handleQuantityChange_never_removes None "B" 9 browsing)
    as (_ & Hitems & Hids & _); [split; [discriminate|reflexivity]|].
  split; [apply Hnothing; lia|]. split; [exact Hitems|exact Hids].
Defined.

Lemma removeFromCart_remote_witness :
  cart_items (after (removeFromCart (Some "u"%string) "A" two_accounts))
    !! ("u"%string, "A"%string) = None ∧
  cart_items (after (removeFromCart (Some "u"%string) "A" two_accounts))
    !! ("v"%string, "A"%string) = Some 5.
Proof.
  destruct (removeFromCart_remote "u" "A" two_accounts) as (_ & _ & _ & Hok & _).
  destruct (Hok eq_refl) as (Hgone & Hrest & _).
  split; [exact Hgone|]. rewrite Hrest by discriminate. reflexivity.
Defined.

Lemma clearCart_remote_witness :
  cart_items (after (clearCart (Some "u"%string) two_accounts)) !! ("u"%string, "B"%string)
  = None ∧
  cart_items (after (clearCart (Some "u"%string) two_accounts)) !! ("v"%string, "A"%string)
  = Some 5.
Proof.
  destruct (clearCart_remote "u" two_accounts) as (_ & _ & _ & _ & Hok & _).
  destruct (Hok eq_refl) as (Hgone & Hrest & _).
  split; [apply Hgone|]. rewrite Hrest by discriminate. reflexivity.
Defined.


Lemma order_progress_follows_the_lifecycle_witness :
  MyOrders.getStatusProgress "packaging" ≤ MyOrders.getStatusProgress "delivered".
Proof.
  destruct MyOrdersFacts.order_progress_follows_the_lifecycle as (_ & _ & _ & Hmono).
  apply (Hmono 2%nat 4%nat); [lia|reflexivity..].
Defined.
